(** * sgp/FileMan.cc of ja2-stracciatella: file manager

    A shallow embedding of the file manager's path utilities, the
    case-insensitive name resolver, the layered open for reading, the
    unified file handle and the directory eraser, together with the
    properties its specification states about them.

    The embedding follows the non-Windows build (the [#else] branches of
    [_WIN32]).  [PATH_SEPARATOR] and [CASE_SENSITIVE_FS] come from headers
    and build flags outside this file; they are parameters here. *)

From Stdlib Require Import String Ascii List ZArith NArith Lia Bool Arith.
From Equations Require Import Equations.
From Equations.Prop Require Import Logic.
Import ListNotations.

Local Open Scope string_scope.

(** ** C strings and fixed-size character arrays *)

(** The terminating NUL, which is what indexing a C string at its length reads. *)
Definition NUL : ascii := Ascii.zero.

(** [s[i]] for [i] up to and including [strlen(s)]. *)
Definition char_at (s : string) (i : nat) : ascii :=
  match String.get i s with
  | Some c => c
  | None => NUL
  end.

(** The first [n] characters of [s] (all of [s] when it is shorter). *)
Fixpoint prefix_n (n : nat) (s : string) : string :=
  match n, s with
  | 0, _ => ""
  | _, EmptyString => ""
  | S n', String c s' => String c (prefix_n n' s')
  end.

(** [s + n] for a [char const*]: the string from offset [n] on. *)
Fixpoint suffix_from (n : nat) (s : string) : string :=
  match n, s with
  | 0, _ => s
  | _, EmptyString => ""
  | S n', String _ s' => suffix_from n' s'
  end.

(** [snprintf(buf, size, ...)]: the formatted text cut to [size - 1]
    characters, so that it is always NUL-terminated inside [buf]. *)
Definition snprintf (size : nat) (formatted : string) : string :=
  prefix_n (size - 1) formatted.

(** ** Outcomes of a call

    A call returns a value, throws a C++ exception, ends the process with
    [abort()], or runs into behaviour the language leaves undefined (here:
    an access outside a fixed-size [char] array, or a read of the union
    member that was not stored). *)

Inductive exn : Type :=
| runtime_error (what : string)
| logic_error (what : string).

Inductive outcome (A : Type) : Type :=
| Returns (a : A)
| Throws (e : exn)
| Aborts
| Undefined.

Arguments Returns {A} a.
Arguments Throws {A} e.
Arguments Aborts {A}.
Arguments Undefined {A}.

Definition bind {A B : Type} (m : outcome A) (k : A -> outcome B) : outcome B :=
  match m with
  | Returns a => k a
  | Throws e => Throws e
  | Aborts => Aborts
  | Undefined => Undefined
  end.

Notation "x <- m ;; k" := (bind m (fun x => k))
  (at level 61, m at next level, right associativity).

(** ** Path utilities *)

Section PathUtilities.

Variable PATH_SEPARATOR : ascii.

(** [std::string FileMan::joinPaths(const std::string &first, const char *second)] *)
Definition joinPaths (first second : string) : string :=
  let result := first in
  let result :=
    if Nat.eqb (String.length result) 0
       || negb (Ascii.eqb (char_at result (String.length result - 1)) PATH_SEPARATOR)
    then
      if negb (Ascii.eqb (char_at second 0) PATH_SEPARATOR)
      then result ++ String PATH_SEPARATOR ""
      else result
    else result in
  result ++ second.

(** [strncat(dst, src, n)] on an array of [cap] bytes holding the string
    [dst]: appends at most [n] characters of [src] and a NUL.  Writing past
    the array is undefined. *)
Definition strncat (cap : nat) (dst src : string) (n : nat) : outcome string :=
  let appended := prefix_n n src in
  if Nat.leb (String.length dst + String.length appended + 1) cap
  then Returns (dst ++ appended)
  else Undefined.

(** [strncpy(dst, src, n)] leaves a NUL-terminated string in [dst] only
    when [src] is shorter than [n]; the string functions that follow read
    past the array otherwise. *)
Definition strncpy_string (src : string) (n : nat) : outcome string :=
  if Nat.ltb (String.length src) n then Returns src else Undefined.

(** [void FileMan::joinPaths(const char *first, const char *second,
    char *outputBuf, int outputBufSize)]; [outputBuf] is an array of
    [outputBufSize] bytes at every call.  [first[strlen(first) - 1]] reads
    before the string when [first] is empty. *)
Definition joinPaths_buf (first second : string) (outputBufSize : nat) : outcome string :=
  outputBuf <- strncpy_string first outputBufSize ;;
  if Nat.eqb (String.length first) 0 then Undefined
  else
    outputBuf <-
      (if negb (Ascii.eqb (char_at first (String.length first - 1)) PATH_SEPARATOR)
       then strncat outputBufSize outputBuf "/" outputBufSize
       else Returns outputBuf) ;;
    strncat outputBufSize outputBuf second outputBufSize.

End PathUtilities.

(** ** Case-insensitive resolver (built when [CASE_SENSITIVE_FS] is set) *)

(** [struct dirent], the two fields the resolver reads. *)
Record dirent : Type := mkDirent {
  d_name : string;
  d_type : N
}.

(** [<dirent.h>] file types. *)
Definition DT_DIR : N := 4.
Definition DT_REG : N := 8.

(** [tolower] in the C locale. *)
Definition tolower (c : ascii) : ascii :=
  let n := nat_of_ascii c in
  if Nat.leb 65 n && Nat.leb n 90 then ascii_of_nat (n + 32) else c.

(** [strcasecmp]: the difference of the first pair of characters that
    differ after [tolower], and 0 when there is none. *)
Fixpoint strcasecmp (s1 s2 : string) : Z :=
  match s1, s2 with
  | EmptyString, EmptyString => 0
  | EmptyString, String c2 _ => (0 - Z.of_nat (nat_of_ascii (tolower c2)))%Z
  | String c1 _, EmptyString => Z.of_nat (nat_of_ascii (tolower c1))
  | String c1 s1', String c2 s2' =>
      let d := (Z.of_nat (nat_of_ascii (tolower c1)) - Z.of_nat (nat_of_ascii (tolower c2)))%Z in
      if Z.eqb d 0 then strcasecmp s1' s2' else d
  end.

(** [strstr(name, "/")] as the offset of the first ['/'] in [name]
    ([None] for a null pointer); the needle is a single character. *)
Fixpoint strstr_slash (name : string) : option nat :=
  match name with
  | EmptyString => None
  | String c rest =>
      if Ascii.eqb c "/" then Some 0
      else match strstr_slash rest with
           | Some k => Some (S k)
           | None => None
           end
  end.

(** [strncpy(buf, src, cap); buf[i] = 0;] on an array [buf] of [cap] bytes:
    the string left in [buf], and undefined when [i] is outside the array
    (so for [i = cap - 1] when [cap] is 0). *)
Definition strncpy_cut (src : string) (cap i : nat) : outcome string :=
  if Nat.ltb i cap then Returns (prefix_n i (prefix_n cap src)) else Undefined.

(** The condition [splitter && (dirNameLen > 0) && splitter[1] != 0]:
    [Some dirNameLen] when it holds. *)
Definition directory_in_name (name : string) : option nat :=
  match strstr_slash name with
  | Some dirNameLen =>
      if Nat.ltb 0 dirNameLen && negb (Ascii.eqb (char_at name (dirNameLen + 1)) NUL)
      then Some dirNameLen
      else None
  | None => None
  end.

(** [(lookForFiles ? DT_REG : 0) | (lookForSubdirs ? DT_DIR : 0)] *)
Definition objectTypes (lookForFiles lookForSubdirs : bool) : N :=
  N.lor (if lookForFiles then DT_REG else 0) (if lookForSubdirs then DT_DIR else 0).

(** The test of the [readdir] loop:
    [(entry->d_type & objectTypes) && !strcasecmp(name, entry->d_name)]. *)
Definition entry_matches (name : string) (types : N) (entry : dirent) : bool :=
  negb (N.eqb (N.land (d_type entry) types) 0)
  && Z.eqb (strcasecmp name (d_name entry)) 0.

(** One turn of the [readdir] loop on the pair ([result], [nameBuf]):
    a match overwrites [nameBuf], whatever it held. *)
Definition scan_step (name : string) (types : N) (nameBufSize : nat)
    (state : outcome (option string)) (entry : dirent) : outcome (option string) :=
  found <- state ;;
  if entry_matches name types entry
  then
    nameBuf <- strncpy_cut (d_name entry) nameBufSize (nameBufSize - 1) ;;
    Returns (Some nameBuf)
  else Returns found.

Lemma strstr_slash_lt name k : strstr_slash name = Some k -> k < String.length name.
Proof.
  revert k; induction name as [|c rest IH]; simpl; intros k H; [discriminate|].
  destruct (Ascii.eqb c "/").
  - injection H as <-. lia.
  - destruct (strstr_slash rest) as [j|]; [|discriminate].
    injection H as <-. specialize (IH j eq_refl). lia.
Qed.

Lemma length_prefix_n n s : String.length (prefix_n n s) = Nat.min n (String.length s).
Proof.
  revert s; induction n as [|n IH]; intros [|c s]; simpl; auto.
Qed.

Lemma length_suffix_from n s : String.length (suffix_from n s) = String.length s - n.
Proof.
  revert s; induction n as [|n IH]; intros [|c s]; simpl; auto.
Qed.

Lemma directory_in_name_lt name k :
  directory_in_name name = Some k -> 0 < k < String.length name.
Proof.
  unfold directory_in_name.
  destruct (strstr_slash name) as [j|] eqn:E; [|discriminate].
  destruct (Nat.ltb 0 j) eqn:Hj; simpl; [|discriminate].
  destruct (negb _); [|discriminate].
  intros [= <-]. apply Nat.ltb_lt in Hj. apply strstr_slash_lt in E. lia.
Qed.

Section Resolver.

Variable PATH_SEPARATOR : ascii.

(** [opendir]/[readdir] on a path: the entries in the order [readdir]
    hands them out, [None] when [opendir] returns a null pointer. *)
Variable sys_opendir : string -> option (list dirent).

(** [static bool findObjectCaseInsensitive(const char *directory,
    const char *name, bool lookForFiles, bool lookForSubdirs,
    char *nameBuf, int nameBufSize)]: [Returns (Some nameBuf)] for [true],
    [Returns None] for [false]. *)
Equations? findObjectCaseInsensitive (directory name : string)
    (lookForFiles lookForSubdirs : bool) (nameBufSize : nat)
    : outcome (option string) by wf (String.length name) lt :=
  findObjectCaseInsensitive directory name lookForFiles lookForSubdirs nameBufSize with
    inspect (directory_in_name name) := {
    | exist _ (Some dirNameLen) Hsplit =>
        (* char newDirectory[128]; strncpy; newDirectory[dirNameLen] = 0 *)
        if Nat.ltb dirNameLen 128 then
          match findObjectCaseInsensitive directory (prefix_n dirNameLen name)
                  false true 128 with
          | Returns (Some actualSubdirName) =>
              match joinPaths_buf PATH_SEPARATOR directory actualSubdirName 128 with
              | Returns newDirectory =>
                  match findObjectCaseInsensitive newDirectory
                          (suffix_from (dirNameLen + 1) name)
                          lookForFiles lookForSubdirs 128 with
                  | Returns (Some pathInSubdir) =>
                      nameBuf <- joinPaths_buf PATH_SEPARATOR actualSubdirName
                                   pathInSubdir nameBufSize ;;
                      Returns (Some nameBuf)
                  | other => other
                  end
              | Throws e => Throws e
              | Aborts => Aborts
              | Undefined => Undefined
              end
          | other => other
          end
        else Undefined
    | exist _ None Hsplit =>
        match sys_opendir directory with
        | Some entries =>
            fold_left
              (scan_step name (objectTypes lookForFiles lookForSubdirs) nameBufSize)
              entries (Returns None)
        | None => Returns None
        end
    }.
Proof.
  - apply directory_in_name_lt in Hsplit. rewrite length_prefix_n. lia.
  - apply directory_in_name_lt in Hsplit. rewrite length_suffix_from. lia.
Qed.

End Resolver.

(** ** The unified file handle *)

(** A stdio stream as far as [fread], [fwrite] and [fseek] go.
    [file_bytes] is the file as the stream shows it, the bytes that are
    still in the stream's buffer included; [file_pos] is the position;
    [can_read], [can_write] and [append_mode] come from the mode the stream
    was opened with ([append_mode] for ["a"]: every write goes to the end of
    the file); [buffer_room] is the room left in the stream's buffer;
    [io_budget] is how many bytes the device still transfers before it
    reports an error.  When stdio passes buffered bytes on to the device is
    its own business; the file manager never asks for it and never looks at
    what [fclose] returns. *)
Record FILE : Type := mkFILE {
  file_bytes : list Byte.byte;
  file_pos : N;
  can_read : bool;
  can_write : bool;
  append_mode : bool;
  buffer_room : N;
  io_budget : N
}.

(** [fread(ptr, size, nmemb, stream)]: the bytes stored at [ptr], the
    number of complete items read, and the stream afterwards.  With [size]
    or [nmemb] zero it returns zero and leaves the stream as it is. *)
Definition fread (size nmemb : N) (stream : FILE) : list Byte.byte * N * FILE :=
  let want := (size * nmemb)%N in
  if N.eqb want 0 then ([], 0%N, stream)
  else
    let left := (N.of_nat (length (file_bytes stream)) - file_pos stream)%N in
    let got :=
      if can_read stream then N.min (N.min want left) (io_budget stream) else 0%N in
    (firstn (N.to_nat got) (skipn (N.to_nat (file_pos stream)) (file_bytes stream)),
     (got / size)%N,
     {| file_bytes := file_bytes stream;
        file_pos := (file_pos stream + got)%N;
        can_read := can_read stream;
        can_write := can_write stream;
        append_mode := append_mode stream;
        buffer_room := buffer_room stream;
        io_budget := (io_budget stream - got)%N |}).

(** [fwrite(ptr, size, nmemb, stream)] with the memory at [ptr] given as a
    function of the offset: the number of complete items written and the
    stream afterwards.  The stream is buffered: bytes that fit the room in
    its buffer are taken there and reported as written, whatever the device
    will do with them later; only a write that does not fit goes to the
    device within the call, which then takes what its budget allows.  A
    stream that is not open for writing takes nothing.  In append mode the
    bytes go to the end of the file, wherever the position was. *)
Definition fwrite (ptr : nat -> Byte.byte) (size nmemb : N) (stream : FILE) : N * FILE :=
  let want := (size * nmemb)%N in
  if N.eqb want 0 then (0%N, stream)
  else
    let in_buffer := N.leb want (buffer_room stream) in
    let put :=
      if can_write stream
      then if in_buffer then want else N.min want (io_budget stream)
      else 0%N in
    if N.eqb put 0 then (0%N, stream)
    else
      let old := file_bytes stream in
      let start :=
        if append_mode stream then N.of_nat (length old) else file_pos stream in
      let pos := N.to_nat start in
      ((put / size)%N,
       {| file_bytes :=
            firstn pos old ++ repeat Byte.x00 (pos - length old)
            ++ map ptr (seq 0 (N.to_nat put))
            ++ skipn (pos + N.to_nat put) old;
          file_pos := (start + put)%N;
          can_read := can_read stream;
          can_write := can_write stream;
          append_mode := append_mode stream;
          buffer_room :=
            if in_buffer then (buffer_room stream - put)%N else buffer_room stream;
          io_budget :=
            if in_buffer then io_budget stream else (io_budget stream - put)%N |}).

(** Modelled from the spec: [LibraryFile] (LibraryDataBase.h is not among
    the sources).  The spec's ArchiveEntry is a reference into an open
    archive plus a cursor position; the entry's bytes stand for the
    reference, [uiFilePosInFile] is the cursor. *)
Record LibraryFile : Type := mkLibraryFile {
  entry_bytes : list Byte.byte;
  uiFilePosInFile : N
}.

(** Modelled from the spec: [LoadDataFromLibrary] (LibraryDataBase.cc is
    not among the sources), the archive collaborator's bounded read
    [readEntry(entryHandle, buffer, count) -> success]: it supplies [count]
    bytes from the cursor and advances the cursor when the entry has that
    many bytes left, and fails otherwise. *)
Definition LoadDataFromLibrary (lib : LibraryFile) (uiBytesToRead : N)
    : option (list Byte.byte * LibraryFile) :=
  if N.leb (uiFilePosInFile lib + uiBytesToRead) (N.of_nat (length (entry_bytes lib)))
  then Some (firstn (N.to_nat uiBytesToRead)
               (skipn (N.to_nat (uiFilePosInFile lib)) (entry_bytes lib)),
             {| entry_bytes := entry_bytes lib;
                uiFilePosInFile := (uiFilePosInFile lib + uiBytesToRead)%N |})
  else None.

(** [enum SGPFileFlags] *)
Definition SGPFILE_NONE : N := 0.
Definition SGPFILE_REAL : N := N.shiftl 1 0.

(** The union inside [struct SGPFile], with the member that was stored. *)
Inductive SGPFile_u : Type :=
| u_file (file : FILE)
| u_lib (lib : LibraryFile).

(** [struct SGPFile]; an [HWFILE] points to one. *)
Record SGPFile : Type := mkSGPFile {
  flags : N;
  u : SGPFile_u
}.

(** [(UINT32)x] for an unsigned [x]. *)
Definition to_UINT32 (x : N) : N := (x mod 2 ^ 32)%N.

(** [void FileRead(HWFILE f, void* pDest, size_t uiBytesToRead)]: the
    object [f] points to after the call, and the bytes stored at [pDest]. *)
Definition FileRead (f : SGPFile) (uiBytesToRead : N) : SGPFile * outcome (list Byte.byte) :=
  if negb (N.eqb (N.land (flags f) SGPFILE_REAL) 0)
  then
    match u f with
    | u_file file =>
        let '(pDest, items, file') := fread uiBytesToRead 1 file in
        let ret := N.eqb items 1 in
        let f' := {| flags := flags f; u := u_file file' |} in
        if negb ret then (f', Throws (runtime_error "Reading from file failed"))
        else (f', Returns pDest)
    | u_lib _ => (f, Undefined)
    end
  else
    match u f with
    | u_lib lib =>
        match LoadDataFromLibrary lib (to_UINT32 uiBytesToRead) with
        | Some (pDest, lib') => ({| flags := flags f; u := u_lib lib' |}, Returns pDest)
        | None => (f, Throws (runtime_error "Reading from file failed"))
        end
    | u_file _ => (f, Undefined)
    end.

(** [void FileWrite(HWFILE f, void const* pDest, size_t uiBytesToWrite)] *)
Definition FileWrite (f : SGPFile) (pDest : nat -> Byte.byte) (uiBytesToWrite : N)
    : SGPFile * outcome unit :=
  if N.eqb (N.land (flags f) SGPFILE_REAL) 0
  then (f, Throws (logic_error "Tried to write to library file"))
  else
    match u f with
    | u_file file =>
        let '(items, file') := fwrite pDest uiBytesToWrite 1 file in
        let f' := {| flags := flags f; u := u_file file' |} in
        if negb (N.eqb items 1) then (f', Throws (runtime_error "Writing to file failed"))
        else (f', Returns tt)
    | u_lib _ => (f, Undefined)
    end.

(** ** Opening a file for reading *)

(** [enum FileOpenFlags] *)
Definition FILE_ACCESS_READ : N := N.shiftl 1 0.
Definition FILE_ACCESS_WRITE : N := N.shiftl 1 1.
Definition FILE_ACCESS_READWRITE : N := N.lor FILE_ACCESS_READ FILE_ACCESS_WRITE.
Definition FILE_ACCESS_APPEND : N := N.shiftl 1 2.

(** The [<fcntl.h>] flags the file manager passes to [open]; a mode is the
    bitwise or of the flags listed. *)
Inductive oflag : Type := O_RDONLY | O_WRONLY | O_RDWR | O_APPEND | O_CREAT | O_TRUNC.

(** [static const char* GetFileOpenModes(FileOpenFlags flags, int *posixMode)]:
    the [fopen] mode returned and the mode stored in [*posixMode]. *)
Definition GetFileOpenModes (flags : N) : outcome (string * list oflag) :=
  let selected := N.land flags (N.lor FILE_ACCESS_READWRITE FILE_ACCESS_APPEND) in
  if N.eqb selected FILE_ACCESS_READ then Returns ("rb", [O_RDONLY])
  else if N.eqb selected FILE_ACCESS_WRITE then Returns ("wb", [O_WRONLY])
  else if N.eqb selected FILE_ACCESS_READWRITE then Returns ("r+b", [O_RDWR])
  else if N.eqb selected FILE_ACCESS_APPEND then Returns ("ab", [O_WRONLY; O_APPEND])
  else Aborts.

Section LayeredOpen.

Variable PATH_SEPARATOR : ascii.

(** The build flag [CASE_SENSITIVE_FS]. *)
Variable CASE_SENSITIVE_FS : bool.

(** [static std::string s_dataDir], read through [FileMan::getDataDirPath()]. *)
Variable s_dataDir : string.

(** [open(path, mode)]: a descriptor, or a negative number. *)
Variable sys_open : string -> list oflag -> Z.

Variable sys_opendir : string -> option (list dirent).

(** [fdopen(fd, fmode)]: the stream, [None] for a null pointer. *)
Variable sys_fdopen : Z -> string -> option FILE.

(** [OpenFileFromLibrary(filename, &libFile)] of the archive collaborator:
    the entry stored in [libFile] when it returns [true]. *)
Variable OpenFileFromLibrary : string -> option LibraryFile.

(** [static int OpenFileInDataDirFD(const char *filename, int mode)] *)
Definition OpenFileInDataDirFD (filename : string) (mode : list oflag) : outcome Z :=
  let path := snprintf 512 (s_dataDir ++ "/" ++ filename) in
  let d := sys_open path mode in
  if Z.ltb d 0 then
    if CASE_SENSITIVE_FS then
      found <- findObjectCaseInsensitive PATH_SEPARATOR sys_opendir
                 s_dataDir filename true false 128 ;;
      match found with
      | Some newFileName =>
          let path := snprintf 512 (s_dataDir ++ "/" ++ newFileName) in
          Returns (sys_open path mode)
      | None => Returns d
      end
    else Returns d
  else Returns d.

(** [static HWFILE getSGPFileFromFD(int fd, const char *filename, const char *fmode)] *)
Definition getSGPFileFromFD (fd : Z) (filename fmode : string) : outcome SGPFile :=
  if Z.ltb fd 0
  then Throws (runtime_error (snprintf 128 ("Opening file '" ++ filename ++ "' failed")))
  else
    match sys_fdopen fd fmode with
    | None =>
        Throws (runtime_error (snprintf 128 ("Opening file '" ++ filename ++ "' failed")))
    | Some f => Returns {| flags := SGPFILE_REAL; u := u_file f |}
    end.

(** [HWFILE FileMan::openForReadingSmart(const char* filename, bool useSmartLookup)] *)
Definition openForReadingSmart (filename : string) (useSmartLookup : bool)
    : outcome SGPFile :=
  modes <- GetFileOpenModes FILE_ACCESS_READ ;;
  let '(fmode, mode) := modes in
  let d := sys_open filename mode in
  if Z.ltb d 0 && useSmartLookup then
    d <- OpenFileInDataDirFD filename mode ;;
    if Z.ltb d 0 then
      match OpenFileFromLibrary filename with
      | Some libFile => Returns {| flags := SGPFILE_NONE; u := u_lib libFile |}
      | None => getSGPFileFromFD d filename fmode
      end
    else getSGPFileFromFD d filename fmode
  else getSGPFileFromFD d filename fmode.

End LayeredOpen.

(** ** Erasing the contents of a directory *)

(** [errno] values [unlink] reports. *)
Inductive errno : Type :=
| ENOENT | EISDIR | EPERM | EACCES | EBUSY | EROFS
| ENOTDIR | ENAMETOOLONG | ELOOP.

(** What [stat] and [unlink] see of a file: whether it is a directory,
    whether its owner may write it, and the error [unlink] reports for it
    when the system refuses to remove it. *)
Record inode : Type := mkInode {
  is_directory : bool;
  owner_writable : bool;
  unlink_refusal : option errno
}.

(** The files of the system by path, in the order in which the system
    enumerates them. *)
Definition filesystem : Type := list (string * inode).

Fixpoint fs_lookup (path : string) (fs : filesystem) : option inode :=
  match fs with
  | [] => None
  | (p, i) :: rest => if String.eqb p path then Some i else fs_lookup path rest
  end.

Fixpoint fs_remove (path : string) (fs : filesystem) : filesystem :=
  match fs with
  | [] => []
  | (p, i) :: rest =>
      if String.eqb p path then fs_remove path rest else (p, i) :: fs_remove path rest
  end.

(** Modelled from the spec: [enum FileAttributes] (FileMan.h is not among
    the sources), a bitset over {IsReadOnly, IsDirectory} plus a
    distinguished Error value that no set of flags equals. *)
Definition FILE_ATTR_NONE : N := 0.
Definition FILE_ATTR_READONLY : N := N.shiftl 1 0.
Definition FILE_ATTR_DIRECTORY : N := N.shiftl 1 1.
Definition FILE_ATTR_ERROR : N := 4294967295.

(** [FileAttributes FileGetAttributes(const char* filename)], through [stat]. *)
Definition FileGetAttributes (fs : filesystem) (filename : string) : N :=
  let attr := FILE_ATTR_NONE in
  match fs_lookup filename fs with
  | None => FILE_ATTR_ERROR
  | Some sb =>
      let attr := if is_directory sb then N.lor attr FILE_ATTR_DIRECTORY else attr in
      let attr := if negb (owner_writable sb) then N.lor attr FILE_ATTR_READONLY else attr in
      attr
  end.

Section Deleting.

(** What [unlink] reports for a path that is not a file of the system:
    [ENOENT] when nothing is in the way, and otherwise what is: [ENOTDIR]
    when a component of the path is a file, [EACCES] when a directory on
    the way may not be searched, [ENAMETOOLONG], [ELOOP]. *)
Variable sys_unlink_missing : filesystem -> string -> errno.

(** [unlink(path)]: the file system afterwards and [errno] when it returns
    non-zero.  A directory is never removed by [unlink]. *)
Definition unlink (path : string) (fs : filesystem) : filesystem * option errno :=
  match fs_lookup path fs with
  | None => (fs, Some (sys_unlink_missing fs path))
  | Some i =>
      if is_directory i then (fs, Some EISDIR)
      else match unlink_refusal i with
           | Some e => (fs, Some e)
           | None => (fs_remove path fs, None)
           end
  end.

(** [void FileDelete(char const* path)] *)
Definition FileDelete (fs : filesystem) (path : string) : filesystem * outcome unit :=
  match unlink path fs with
  | (fs', None) => (fs', Returns tt)
  | (fs', Some ENOENT) => (fs', Returns tt)
  | (fs', Some _) => (fs', Throws (runtime_error "Deleting file failed"))
  end.

End Deleting.

(** [strrchr(path, c)] as the offset of the last [c] in [path]. *)
Fixpoint strrchr (path : string) (c : ascii) : option nat :=
  match path with
  | EmptyString => None
  | String a rest =>
      match strrchr rest c with
      | Some k => Some (S k)
      | None => if Ascii.eqb a c then Some 0 else None
      end
  end.

Section EraseDirectory.

Variable PATH_SEPARATOR : ascii.

(** [glob(pattern, GLOB_NOSORT, 0, g)]: the paths of [gl_pathv] in the
    order [glob] found them (none for [GLOB_NOMATCH]), and [None] for
    any other error. *)
Variable sys_glob : filesystem -> string -> option (list string).

Variable sys_unlink_missing : filesystem -> string -> errno.

(** [SGP::FindFiles::FindFiles(char const* pattern)]: [gl_pathv]. *)
Definition FindFiles (fs : filesystem) (pattern : string) : outcome (list string) :=
  match sys_glob fs pattern with
  | Some gl_pathv => Returns gl_pathv
  | None => Throws (runtime_error "Failed to start file search")
  end.

(** What [SGP::FindFiles::Next()] returns for the entry [path] of
    [gl_pathv]: the part after the last separator. *)
Definition FindFiles_Next (path : string) : string :=
  match strrchr path PATH_SEPARATOR with
  | Some start => suffix_from (start + 1) path
  | None => path
  end.

(** The [while] loop of [EraseDirectory] over the entries [Next] has not
    handed out yet. *)
Fixpoint EraseDirectory_loop (path : string) (gl_pathv : list string) (fs : filesystem)
    : filesystem * outcome unit :=
  match gl_pathv with
  | [] => (fs, Returns tt)
  | entry :: rest =>
      let find_filename := FindFiles_Next entry in
      let filename := snprintf 512 (path ++ "/" ++ find_filename) in
      match FileDelete sys_unlink_missing fs filename with
      | (fs', Returns _) => EraseDirectory_loop path rest fs'
      | (fs', Throws e) =>
          let attr := FileGetAttributes fs' filename in
          if negb (N.eqb attr FILE_ATTR_ERROR)
             && negb (N.eqb (N.land attr FILE_ATTR_DIRECTORY) 0)
          then EraseDirectory_loop path rest fs'
          else (fs', Throws e)
      | (fs', other) => (fs', other)
      end
  end.

(** [void EraseDirectory(char const* path)] *)
Definition EraseDirectory (fs : filesystem) (path : string) : filesystem * outcome unit :=
  let pattern := snprintf 512 (path ++ "/*") in
  match FindFiles fs pattern with
  | Returns gl_pathv => EraseDirectory_loop path gl_pathv fs
  | Throws e => (fs, Throws e)
  | Aborts => (fs, Aborts)
  | Undefined => (fs, Undefined)
  end.

End EraseDirectory.

(** ** Seeking, position and size of a handle *)

(** Modelled from the spec: [enum FileSeekMode] (FileMan.h is not among
    the sources), the three seek origins; [FileSeek] names the first two and
    treats every other value as the current position. *)
Inductive FileSeekMode : Type :=
| FILE_SEEK_FROM_START
| FILE_SEEK_FROM_END
| FILE_SEEK_FROM_CURRENT.

(** The [whence] argument of [fseek]. *)
Inductive seek_whence : Type := SEEK_SET | SEEK_END | SEEK_CUR.

(** [fseek(stream, offset, whence)]: 0 and the stream at the new position,
    or -1 and the stream as it was when the position would be negative. *)
Definition fseek (stream : FILE) (offset : Z) (whence : seek_whence) : Z * FILE :=
  let base :=
    match whence with
    | SEEK_SET => 0%Z
    | SEEK_END => Z.of_nat (length (file_bytes stream))
    | SEEK_CUR => Z.of_N (file_pos stream)
    end in
  let target := (base + offset)%Z in
  if Z.ltb target 0 then ((-1)%Z, stream)
  else (0%Z,
        {| file_bytes := file_bytes stream;
           file_pos := Z.to_N target;
           can_read := can_read stream;
           can_write := can_write stream;
           append_mode := append_mode stream;
           buffer_room := buffer_room stream;
           io_budget := io_budget stream |}).

(** [ftell(stream)] *)
Definition ftell (stream : FILE) : Z := Z.of_N (file_pos stream).

(** [(INT32)x]: the 32 low bits of [x] read as a signed number. *)
Definition to_INT32 (x : Z) : Z := ((x + 2 ^ 31) mod 2 ^ 32 - 2 ^ 31)%Z.

Section HandlePosition.

(** [LibraryFileSeek(&lib, distance, how)] of the archive collaborator:
    the entry afterwards and whether it succeeded. *)
Variable LibraryFileSeek : LibraryFile -> Z -> FileSeekMode -> LibraryFile * bool.

(** [fstat(fileno(file), &sb)]: [sb.st_size], [None] when it fails. *)
Variable sys_fstat : FILE -> option N.

(** [void FileSeek(HWFILE f, INT32 distance, FileSeekMode how)] *)
Definition FileSeek (f : SGPFile) (distance : Z) (how : FileSeekMode)
    : SGPFile * outcome unit :=
  if negb (N.eqb (N.land (flags f) SGPFILE_REAL) 0)
  then
    match u f with
    | u_file file =>
        let whence :=
          match how with
          | FILE_SEEK_FROM_START => SEEK_SET
          | FILE_SEEK_FROM_END => SEEK_END
          | _ => SEEK_CUR
          end in
        let '(ret, file') := fseek file distance whence in
        let success := Z.eqb ret 0 in
        let f' := {| flags := flags f; u := u_file file' |} in
        if negb success then (f', Throws (runtime_error "Seek in file failed"))
        else (f', Returns tt)
    | u_lib _ => (f, Undefined)
    end
  else
    match u f with
    | u_lib lib =>
        let '(lib', success) := LibraryFileSeek lib distance how in
        let f' := {| flags := flags f; u := u_lib lib' |} in
        if negb success then (f', Throws (runtime_error "Seek in file failed"))
        else (f', Returns tt)
    | u_file _ => (f, Undefined)
    end.

(** [INT32 FileGetPos(const HWFILE f)] *)
Definition FileGetPos (f : SGPFile) : outcome Z :=
  if negb (N.eqb (N.land (flags f) SGPFILE_REAL) 0)
  then
    match u f with
    | u_file file => Returns (to_INT32 (ftell file))
    | u_lib _ => Undefined
    end
  else
    match u f with
    | u_lib lib => Returns (to_INT32 (Z.of_N (uiFilePosInFile lib)))
    | u_file _ => Undefined
    end.

(** [UINT32 FileGetSize(const HWFILE f)]; the length field of the entry's
    header is the number of bytes of the entry. *)
Definition FileGetSize (f : SGPFile) : outcome N :=
  if negb (N.eqb (N.land (flags f) SGPFILE_REAL) 0)
  then
    match u f with
    | u_file file =>
        match sys_fstat file with
        | None => Throws (runtime_error "Getting file size failed")
        | Some st_size => Returns (to_UINT32 st_size)
        end
    | u_lib _ => Undefined
    end
  else
    match u f with
    | u_lib lib => Returns (N.of_nat (length (entry_bytes lib)))
    | u_file _ => Undefined
    end.

End HandlePosition.

(** ** The other ways to open a file *)

Section OtherOpens.

Variable PATH_SEPARATOR : ascii.
Variable CASE_SENSITIVE_FS : bool.
Variable s_dataDir : string.
Variable sys_open : string -> list oflag -> Z.

(** [open3(path, flags, mode)]: [open] with the permissions of a file it
    creates. *)
Variable sys_open3 : string -> list oflag -> N -> Z.

Variable sys_opendir : string -> option (list dirent).
Variable sys_fdopen : Z -> string -> option FILE.

(** [fopen(path, mode)]: the stream, [None] for a null pointer. *)
Variable sys_fopen : string -> string -> option FILE.

(** [CheckIfFileExistInLibrary(filename)] of the archive collaborator. *)
Variable CheckIfFileExistInLibrary : string -> bool.

(** [bool FileExists(char const* filename)] *)
Definition FileExists (filename : string) : bool :=
  match sys_fopen filename "rb" with
  | Some _ => true
  | None =>
      let path := snprintf 512 (s_dataDir ++ "/" ++ filename) in
      match sys_fopen path "rb" with
      | Some _ => true
      | None => CheckIfFileExistInLibrary filename
      end
  end.

(** [HWFILE FileMan::openForWriting(const char *filename)]; 0600 is 384. *)
Definition openForWriting (filename : string) : outcome SGPFile :=
  modes <- GetFileOpenModes FILE_ACCESS_WRITE ;;
  let '(fmode, mode) := modes in
  let d := sys_open3 filename (mode ++ [O_CREAT; O_TRUNC])%list 384 in
  getSGPFileFromFD sys_fdopen d filename fmode.

(** [HWFILE FileMan::openForAppend(const char *filename)] *)
Definition openForAppend (filename : string) : outcome SGPFile :=
  modes <- GetFileOpenModes FILE_ACCESS_APPEND ;;
  let '(fmode, mode) := modes in
  let d := sys_open3 filename (mode ++ [O_CREAT])%list 384 in
  getSGPFileFromFD sys_fdopen d filename fmode.

(** [HWFILE FileMan::openForReadWrite(const char *filename)] *)
Definition openForReadWrite (filename : string) : outcome SGPFile :=
  modes <- GetFileOpenModes FILE_ACCESS_READWRITE ;;
  let '(fmode, mode) := modes in
  let d := sys_open3 filename (mode ++ [O_CREAT])%list 384 in
  getSGPFileFromFD sys_fdopen d filename fmode.

(** [FILE* FileMan::openForReadingInDataDir(const char *filename)]: the
    stream, [None] for a null pointer. *)
Definition openForReadingInDataDir (filename : string) : outcome (option FILE) :=
  modes <- GetFileOpenModes FILE_ACCESS_READ ;;
  let '(fmode, mode) := modes in
  d <- OpenFileInDataDirFD PATH_SEPARATOR CASE_SENSITIVE_FS s_dataDir sys_open
         sys_opendir filename mode ;;
  if Z.leb 0 d then
    match sys_fdopen d fmode with
    | None => Returns None
    | Some hFile => Returns (Some hFile)
    end
  else Returns None.

End OtherOpens.

(** ** Locating the data directories *)

(** [#define BASEDATADIR "data"] *)
Definition BASEDATADIR : string := "data".

Section DirectoryLocator.

Variable PATH_SEPARATOR : ascii.
Variable CASE_SENSITIVE_FS : bool.
Variable sys_opendir : string -> option (list dirent).

(** The macros [TILECACHEDIR] and [MAPSDIR] of Directories.h. *)
Variable TILECACHEDIR : string.
Variable MAPSDIR : string.

(** [static void findDataDirs()]: what it leaves in [s_dataDir],
    [s_tileDir] and [s_mapsDir], from [s_gameResRootPath]. *)
Definition findDataDirs (s_gameResRootPath : string) : outcome (string * string * string) :=
  let s_dataDir := joinPaths PATH_SEPARATOR s_gameResRootPath BASEDATADIR in
  let s_tileDir := joinPaths PATH_SEPARATOR s_dataDir TILECACHEDIR in
  let s_mapsDir := joinPaths PATH_SEPARATOR s_dataDir MAPSDIR in
  if CASE_SENSITIVE_FS then
    found <- findObjectCaseInsensitive PATH_SEPARATOR sys_opendir
               s_gameResRootPath BASEDATADIR false true 128 ;;
    let s_dataDir :=
      match found with
      | Some name => joinPaths PATH_SEPARATOR s_gameResRootPath name
      | None => s_dataDir
      end in
    found <- findObjectCaseInsensitive PATH_SEPARATOR sys_opendir
               s_dataDir TILECACHEDIR false true 128 ;;
    let s_tileDir :=
      match found with
      | Some name => joinPaths PATH_SEPARATOR s_dataDir name
      | None => s_tileDir
      end in
    found <- findObjectCaseInsensitive PATH_SEPARATOR sys_opendir
               s_dataDir MAPSDIR false true 128 ;;
    let s_mapsDir :=
      match found with
      | Some name => joinPaths PATH_SEPARATOR s_dataDir name
      | None => s_mapsDir
      end in
    Returns (s_dataDir, s_tileDir, s_mapsDir)
  else Returns (s_dataDir, s_tileDir, s_mapsDir).

End DirectoryLocator.

(** ** Creating a directory *)

(** What [mkdir] reports when it fails: the path exists, or another error. *)
Inductive mkdir_error : Type :=
| MKDIR_EEXIST
| MKDIR_OTHER (e : errno).

Section CreateDirectory.

(** Whether the system lets the caller make a directory at a path that is
    free (the parent is there and may be written), and the error if not. *)
Variable sys_mkdir_refusal : filesystem -> string -> option errno.

(** [mkdir(path, 0755)]: the new directory is entered after the files
    there are. *)
Definition mkdir (path : string) (fs : filesystem) : filesystem * option mkdir_error :=
  match fs_lookup path fs with
  | Some _ => (fs, Some MKDIR_EEXIST)
  | None =>
      match sys_mkdir_refusal fs path with
      | Some e => (fs, Some (MKDIR_OTHER e))
      | None =>
          ((fs ++ [(path, {| is_directory := true; owner_writable := true;
                             unlink_refusal := None |})])%list,
           None)
      end
  end.

(** [void FileMan::createDir(char const* path)] *)
Definition createDir (fs : filesystem) (path : string) : filesystem * outcome unit :=
  match mkdir path fs with
  | (fs', None) => (fs', Returns tt)
  | (fs', Some MKDIR_EEXIST) =>
      let attr := FileGetAttributes fs' path in
      if negb (N.eqb attr FILE_ATTR_ERROR)
         && negb (N.eqb (N.land attr FILE_ATTR_DIRECTORY) 0)
      then (fs', Returns tt)
      else (fs', Throws (runtime_error "Failed to create directory"))
  | (fs', Some (MKDIR_OTHER _)) =>
      (fs', Throws (runtime_error "Failed to create directory"))
  end.

End CreateDirectory.

(** * Vocabulary of the specification *)

(** [s] ends with the separator [sep]. *)
Definition ends_with (sep : ascii) (s : string) : bool :=
  negb (Nat.eqb (String.length s) 0)
  && Ascii.eqb (char_at s (String.length s - 1)) sep.

(** [s] begins with the separator [sep]. *)
Definition begins_with (sep : ascii) (s : string) : bool :=
  Ascii.eqb (char_at s 0) sep.

(** The separators that meet where [joinPaths sep a b] joins [a] and [b]:
    the one [a] ends with, the ones put in between, the one [b] begins with. *)
Definition separators_at_junction (sep : ascii) (a b : string) : nat :=
  (if ends_with sep a then 1 else 0)
  + (String.length (joinPaths sep a b) - String.length a - String.length b)
  + (if begins_with sep b then 1 else 0).

(** The handles the file manager creates: [getSGPFileFromFD] makes the
    first, [openForReadingSmart] the second from a library entry. *)
Definition RealFile (file : FILE) : SGPFile :=
  {| flags := SGPFILE_REAL; u := u_file file |}.
Definition ArchiveEntry (lib : LibraryFile) : SGPFile :=
  {| flags := SGPFILE_NONE; u := u_lib lib |}.

(** The error conditions of the specification, as the exceptions thrown. *)
Definition NotFound (filename : string) : exn :=
  runtime_error (snprintf 128 ("Opening file '" ++ filename ++ "' failed")).
Definition ReadFailure : exn := runtime_error "Reading from file failed".
Definition WriteFailure : exn := runtime_error "Writing to file failed".
Definition LogicError : exn := logic_error "Tried to write to library file".
Definition DeleteFailure : exn := runtime_error "Deleting file failed".

(** The last entry of a directory listing that passes the test of the
    [readdir] loop, searched from the end of the listing. *)
Fixpoint last_match (name : string) (types : N) (entries : list dirent) : option dirent :=
  match entries with
  | [] => None
  | entry :: rest =>
      match last_match name types rest with
      | Some later => Some later
      | None => if entry_matches name types entry then Some entry else None
      end
  end.

(** [n] copies of the character [c]. *)
Fixpoint string_repeat (c : ascii) (n : nat) : string :=
  match n with
  | 0 => ""
  | S n' => String c (string_repeat c n')
  end.

(** The path [OpenFileInDataDirFD] formats for [name] in the data directory. *)
Definition data_dir_path (s_dataDir name : string) : string :=
  snprintf 512 (s_dataDir ++ "/" ++ name).

(** What [getSGPFileFromFD] makes of a descriptor that [open] returned for
    reading: a handle tagged as a real file, or the open error. *)
Definition real_file_handle (sys_fdopen : Z -> string -> option FILE)
    (fd : Z) (filename : string) : outcome SGPFile :=
  match sys_fdopen fd "rb" with
  | Some file => Returns (RealFile file)
  | None => Throws (NotFound filename)
  end.

(** The data directory has nothing to open for [filename]: the formatted
    path does not open and, where the file system is case-sensitive, the
    resolver reports not-found or finds a name that does not open either. *)
Definition data_dir_exhausted (PATH_SEPARATOR : ascii) (CASE_SENSITIVE_FS : bool)
    (s_dataDir : string) (sys_open : string -> list oflag -> Z)
    (sys_opendir : string -> option (list dirent)) (filename : string) : Prop :=
  (sys_open (data_dir_path s_dataDir filename) [O_RDONLY] < 0)%Z
  /\ (CASE_SENSITIVE_FS = false
      \/ findObjectCaseInsensitive PATH_SEPARATOR sys_opendir
           s_dataDir filename true false 128 = Returns None
      \/ exists newFileName,
           findObjectCaseInsensitive PATH_SEPARATOR sys_opendir
             s_dataDir filename true false 128 = Returns (Some newFileName)
           /\ (sys_open (data_dir_path s_dataDir newFileName) [O_RDONLY] < 0)%Z).

(** The path of [name] in the data directory.  It is what [joinPaths]
    returns for the two unless the data directory ends with a separator or
    the name begins with one: the separator is doubled then. *)
Definition path_in_data_dir (s_dataDir name : string) : string :=
  s_dataDir ++ "/" ++ name.

(** [filename] is not in the data directory: its path there does not
    open and, where the file system is case-sensitive, the resolver
    reports not-found or finds a name whose path in the data directory,
    within the 512 bytes of the path array, does not open either. *)
Definition absent_from_data_dir (CASE_SENSITIVE_FS : bool)
    (s_dataDir : string) (sys_open : string -> list oflag -> Z)
    (sys_opendir : string -> option (list dirent)) (filename : string) : Prop :=
  (sys_open (path_in_data_dir s_dataDir filename) [O_RDONLY] < 0)%Z
  /\ (CASE_SENSITIVE_FS = false
      \/ findObjectCaseInsensitive "/" sys_opendir
           s_dataDir filename true false 128 = Returns None
      \/ exists newFileName,
           findObjectCaseInsensitive "/" sys_opendir
             s_dataDir filename true false 128 = Returns (Some newFileName)
           /\ String.length (path_in_data_dir s_dataDir newFileName) < 512
           /\ (sys_open (path_in_data_dir s_dataDir newFileName) [O_RDONLY] < 0)%Z).

(** The file name [EraseDirectory] builds for an entry of [gl_pathv]. *)
Definition erase_target (PATH_SEPARATOR : ascii) (path entry : string) : string :=
  snprintf 512 (path ++ "/" ++ FindFiles_Next PATH_SEPARATOR entry).

(** The path of the child [name] of the directory [path]. *)
Definition child_path (path name : string) : string := path ++ "/" ++ name.

(** [unlink] removes [p]: a file that is not a directory and that the
    system does not refuse to remove. *)
Definition deletable (fs : filesystem) (p : string) : bool :=
  match fs_lookup p fs with
  | Some i =>
      negb (is_directory i)
      && match unlink_refusal i with None => true | Some _ => false end
  | None => false
  end.

(** [unlink] fails on [p] for a reason other than [p] being a directory or
    being gone already. *)
Definition refused (sys_unlink_missing : filesystem -> string -> errno)
    (fs : filesystem) (p : string) : bool :=
  match fs_lookup p fs with
  | Some i =>
      negb (is_directory i)
      && match unlink_refusal i with
         | None | Some ENOENT => false
         | Some _ => true
         end
  | None =>
      match sys_unlink_missing fs p with
      | ENOENT => false
      | _ => true
      end
  end.

(** [p] is one of [paths]. *)
Definition mem (p : string) (paths : list string) : bool :=
  existsb (String.eqb p) paths.

(** The call neither throws nor aborts. *)
Definition no_exception {A : Type} (o : outcome A) : Prop :=
  match o with
  | Throws _ | Aborts => False
  | Returns _ | Undefined => True
  end.

(** The error of a seek. *)
Definition SeekFailure : exn := runtime_error "Seek in file failed".

(** The error of [createDir]. *)
Definition CreateFailure : exn := runtime_error "Failed to create directory".

(** The position a seek on a stream counts from. *)
Definition seek_base (file : FILE) (how : FileSeekMode) : Z :=
  match how with
  | FILE_SEEK_FROM_START => 0%Z
  | FILE_SEEK_FROM_END => Z.of_nat (length (file_bytes file))
  | FILE_SEEK_FROM_CURRENT => Z.of_N (file_pos file)
  end.

(** [file] moved to the position [pos]. *)
Definition at_position (file : FILE) (pos : N) : FILE :=
  {| file_bytes := file_bytes file; file_pos := pos;
     can_read := can_read file; can_write := can_write file;
     append_mode := append_mode file; buffer_room := buffer_room file;
     io_budget := io_budget file |}.

(** A handle tagged as what its union holds. *)
Definition well_tagged (h : SGPFile) : Prop :=
  (exists file, h = RealFile file) \/ (exists lib, h = ArchiveEntry lib).

(** ** A sample installation

    A small environment on which the properties below are exercised: a
    data directory whose entries differ in case from the names the game
    asks for, one archive entry, and a directory to erase. *)

Definition sample_opendir (path : string) : option (list dirent) :=
  if String.eqb path "data" then
    Some [mkDirent "MAPS" DT_DIR; mkDirent "maps" DT_REG;
          mkDirent "Maps" DT_DIR; mkDirent "readme.txt" DT_REG]
  else if String.eqb path "data/Maps" then
    Some [mkDirent "A1.DAT" DT_REG; mkDirent "a1.dat" DT_REG]
  else None.

Definition sample_open (path : string) (mode : list oflag) : Z :=
  if String.eqb path "data/Maps/a1.dat" then 3%Z else (-1)%Z.

Definition sample_stream : FILE :=
  {| file_bytes := [Byte.x4a; Byte.x41; Byte.x32]; file_pos := 0;
     can_read := true; can_write := false;
     append_mode := false; buffer_room := 4096; io_budget := 4096 |}.

Definition sample_fdopen (fd : Z) (fmode : string) : option FILE :=
  if Z.eqb fd 3 then Some sample_stream else None.

Definition sample_entry : LibraryFile :=
  {| entry_bytes := [Byte.x52; Byte.x49; Byte.x46]; uiFilePosInFile := 0 |}.

Definition sample_library (filename : string) : option LibraryFile :=
  if String.eqb filename "sounds/hit.wav" then Some sample_entry else None.

(** A stream whose buffer is full, on a device that takes two more bytes. *)
Definition sample_full_device : FILE :=
  {| file_bytes := []; file_pos := 0;
     can_read := false; can_write := true;
     append_mode := false; buffer_room := 0; io_budget := 2 |}.

(** A stream just opened for writing on the same device: its buffer is
    empty. *)
Definition sample_limited_file : FILE :=
  {| file_bytes := []; file_pos := 0;
     can_read := false; can_write := true;
     append_mode := false; buffer_room := 4096; io_budget := 2 |}.

Definition sample_file : inode :=
  {| is_directory := false; owner_writable := true; unlink_refusal := None |}.
Definition sample_directory : inode :=
  {| is_directory := true; owner_writable := true; unlink_refusal := None |}.
Definition sample_busy_file : inode :=
  {| is_directory := false; owner_writable := true; unlink_refusal := Some EBUSY |}.

Definition sample_fs : filesystem :=
  [("D/a.txt", sample_file); ("D/sub", sample_directory); ("D/sub/x.txt", sample_file);
   ("D/b.txt", sample_file); ("E/c.txt", sample_file)].

(** [unlink] on a path that is not there: [ENOTDIR] when the path runs
    through a file, [ENOENT] otherwise. *)
Definition sample_unlink_missing (fs : filesystem) (path : string) : errno :=
  if existsb
       (fun entry =>
          negb (is_directory (snd entry)) && String.prefix (fst entry ++ "/") path)
       fs
  then ENOTDIR else ENOENT.

(** [glob] for the patterns [dir/*]: the paths directly below [dir] whose
    name does not begin with a dot, in the order of the file system. *)
Definition sample_glob (fs : filesystem) (pattern : string) : option (list string) :=
  let dir := prefix_n (String.length pattern - 1) pattern in
  if Ascii.eqb (char_at pattern (String.length pattern - 1)) "*" then
    Some (filter
            (fun p =>
               let name := suffix_from (String.length dir) p in
               String.prefix dir p
               && negb (String.eqb name "")
               && negb (Ascii.eqb (char_at name 0) ".")
               && match strstr_slash name with None => true | Some _ => false end)
            (map fst fs))
  else None.

(** A directory whose path has 505 characters, with one file in it. *)
Definition sample_deep_directory : string := string_repeat "d" 505.

Definition sample_deep_fs : filesystem :=
  [(sample_deep_directory ++ "/child.txt", sample_file)].

(** A file name of 513 characters, five directories deep; its path in
    the data directory has 518.  An installation that has the file there,
    and one that has a file at the first 511 characters of that path. *)
Definition sample_long_name : string :=
  let segment := string_repeat "d" 100 ++ "/" in
  segment ++ segment ++ segment ++ segment ++ segment ++ "file.dat".

Definition sample_long_open (path : string) (mode : list oflag) : Z :=
  if String.eqb path ("data/" ++ sample_long_name) then 3%Z else (-1)%Z.

Definition sample_cut_open (path : string) (mode : list oflag) : Z :=
  if String.eqb path (prefix_n 511 ("data/" ++ sample_long_name)) then 3%Z else (-1)%Z.

(** A data directory at the end of a long path, with one subdirectory. *)
Definition sample_long_directory : string := string_repeat "d" 123.

Definition sample_long_opendir (path : string) : option (list dirent) :=
  if String.eqb path sample_long_directory then Some [mkDirent "maps" DT_DIR] else None.

(** A file system that does not report the types of its entries. *)
Definition sample_untyped_opendir (path : string) : option (list dirent) :=
  if String.eqb path "data" then Some [mkDirent "maps" 0; mkDirent "Maps" 0] else None.

(** An installation whose data directory is spelled "Data" and has no tile
    cache directory. *)
Definition sample_root_opendir (path : string) : option (list dirent) :=
  if String.eqb path "game" then Some [mkDirent "Data" DT_DIR; mkDirent "docs" DT_DIR]
  else if String.eqb path "game/Data" then Some [mkDirent "Maps" DT_DIR]
  else None.

Definition sample_fopen (path fmode : string) : option FILE :=
  if String.eqb path "data/Maps/a1.dat" then Some sample_stream else None.

Definition sample_check_library (filename : string) : bool :=
  String.eqb filename "sounds/hit.wav".

Definition sample_fdopen_any (fd : Z) (fmode : string) : option FILE :=
  Some sample_stream.

(** An empty file opened for reading and writing. *)
Definition sample_new_file : FILE :=
  {| file_bytes := []; file_pos := 0;
     can_read := true; can_write := true;
     append_mode := false; buffer_room := 4096; io_budget := 4096 |}.

Definition sample_LibraryFileSeek (lib : LibraryFile) (distance : Z) (how : FileSeekMode)
    : LibraryFile * bool :=
  (lib, true).

Definition sample_fstat (file : FILE) : option N :=
  Some (N.of_nat (length (file_bytes file))).

(** * Properties *)

(** ** Strings *)

Lemma length_append (s1 s2 : string) :
  String.length (s1 ++ s2) = String.length s1 + String.length s2.
Proof. induction s1 as [|c s1 IH]; simpl; [reflexivity | now rewrite IH]. Qed.

Lemma append_assoc (s1 s2 s3 : string) : (s1 ++ s2) ++ s3 = s1 ++ s2 ++ s3.
Proof. induction s1 as [|c s1 IH]; simpl; [reflexivity | now rewrite IH]. Qed.

Lemma prefix_n_all (n : nat) (s : string) :
  String.length s <= n -> prefix_n n s = s.
Proof.
  revert s; induction n as [|n IH]; intros [|c s] H; simpl in *; try reflexivity.
  - lia.
  - f_equal. apply IH. lia.
Qed.

(** Unfolds the function at the head of [t], also when an abbreviation
    of the section hides its name. *)
Ltac head_of t :=
  lazymatch t with
  | ?f _ => head_of f
  | _ => t
  end.
Tactic Notation "unfold_fn" constr(t) := let h := head_of t in unfold h.

(** Case analysis on the first [Nat.ltb] of the goal. *)
Ltac case_ltb :=
  match goal with
  | |- context [Nat.ltb ?a ?b] => destruct (Nat.ltb_spec a b)
  end.

Lemma append_inv_head (a y z : string) : a ++ y = a ++ z -> y = z.
Proof. induction a as [|c a IH]; simpl; [trivial|]. intros [= H]. auto. Qed.

(** ** Path utilities *)

Section PathProperties.

Variable PATH_SEPARATOR : ascii.
Local Abbreviation joinPaths := (joinPaths PATH_SEPARATOR).
Local Abbreviation ends_with := (ends_with PATH_SEPARATOR).
Local Abbreviation begins_with := (begins_with PATH_SEPARATOR).

Lemma joinPaths_cases (a b : string) :
  joinPaths a b =
  a ++ (if ends_with a || begins_with b then "" else String PATH_SEPARATOR "") ++ b.
Proof.
  unfold joinPaths, ends_with, begins_with.
  destruct (Nat.eqb (String.length a) 0) eqn:Ha; simpl.
  - destruct (Ascii.eqb (char_at b 0) PATH_SEPARATOR); simpl; [reflexivity|].
    now rewrite append_assoc.
  - destruct (Ascii.eqb (char_at a (String.length a - 1)) PATH_SEPARATOR); simpl.
    + reflexivity.
    + destruct (Ascii.eqb (char_at b 0) PATH_SEPARATOR); simpl; [reflexivity|].
      now rewrite append_assoc.
Qed.

(** C3 (as amended): [joinPaths a b] is [a] followed by [b] with a single
    separator put between them exactly when [a] does not end with one and
    [b] does not begin with one; it never removes a separator.  So one
    separator stands at the junction, except when [a] ends with one and
    [b] begins with one: then both are kept and two stand there. *)
Theorem joinPaths_junction (a b : string) :
  joinPaths a b =
    a ++ (if ends_with a || begins_with b then "" else String PATH_SEPARATOR "") ++ b
  /\ separators_at_junction PATH_SEPARATOR a b =
     (if ends_with a && begins_with b then 2 else 1).
Proof.
  split; [apply joinPaths_cases|].
  unfold separators_at_junction. rewrite joinPaths_cases.
  rewrite !length_append.
  destruct (ends_with a), (begins_with b); simpl; lia.
Qed.

(** C9: with an empty first component and a second one that does not
    begin with the separator, [joinPaths] returns the separator followed by
    the second component. *)
Theorem joinPaths_empty_first (b : string) :
  char_at b 0 <> PATH_SEPARATOR ->
  joinPaths "" b = String PATH_SEPARATOR b.
Proof.
  intros Hb. unfold_fn joinPaths. simpl.
  apply Ascii.eqb_neq in Hb. rewrite Hb. reflexivity.
Qed.

(** The overload that writes into a caller's array: defined when [first]
    is not empty and the joined path with its NUL fits the array; it looks
    at the end of [first] only and always puts ['/'] in. *)
Lemma strncat_whole (cap : nat) (dst src : string) :
  strncat cap dst src cap =
  if Nat.ltb (String.length dst + String.length src) cap
  then Returns (dst ++ src)
  else Undefined.
Proof.
  unfold strncat. rewrite length_prefix_n.
  destruct (Nat.ltb_spec (String.length dst + String.length src) cap) as [L|L].
  - rewrite prefix_n_all by lia.
    destruct (Nat.leb_spec (String.length dst + Nat.min cap (String.length src) + 1) cap);
      [reflexivity | lia].
  - destruct (Nat.leb_spec (String.length dst + Nat.min cap (String.length src) + 1) cap);
      [lia | reflexivity].
Qed.

(** The overload that writes into a caller's array: defined when [first]
    is not empty and the joined path with its NUL fits the array; it looks
    at the end of [first] only and always puts ['/'] in. *)
Lemma joinPaths_buf_cases (first second : string) (size : nat) :
  joinPaths_buf PATH_SEPARATOR first second size =
  let joined := first ++ (if ends_with first then "" else "/") ++ second in
  if negb (Nat.eqb (String.length first) 0) && Nat.ltb (String.length joined) size
  then Returns joined
  else Undefined.
Proof.
  unfold joinPaths_buf, strncpy_string, ends_with. cbv zeta.
  rewrite !length_append.
  destruct (Nat.eqb (String.length first) 0) eqn:H0; simpl negb; simpl andb.
  - destruct (Nat.ltb (String.length first) size); reflexivity.
  - destruct (Ascii.eqb (char_at first (String.length first - 1)) PATH_SEPARATOR);
      simpl negb; cbv iota; rewrite ?strncat_whole; simpl String.length;
      destruct (Nat.ltb_spec (String.length first) size) as [H1|H1]; simpl bind;
      rewrite ?strncat_whole; simpl String.length; simpl append.
    + reflexivity.
    + case_ltb; [lia | reflexivity].
    + case_ltb; simpl bind.
      * rewrite strncat_whole, length_append, append_assoc. simpl.
        repeat case_ltb; try reflexivity; lia.
      * case_ltb; [lia | reflexivity].
    + case_ltb; [lia | reflexivity].
Qed.

End PathProperties.

(** C3, as stated, fails: a first component that ends with the separator
    joined to a second one that begins with it keeps both. *)
Lemma joinPaths_doubled_separator :
  joinPaths "/" "a/" "/b" = "a//b" /\ separators_at_junction "/" "a/" "/b" <> 1.
Proof. split; [reflexivity | vm_compute; discriminate]. Qed.

Lemma joinPaths_junction_witness :
  joinPaths "/" "home" ".ja2" = "home/.ja2"
  /\ separators_at_junction "/" "home" ".ja2" = 1.
Proof. exact (joinPaths_junction "/" "home" ".ja2"). Defined.

Lemma joinPaths_empty_first_witness : joinPaths "/" "" "data" = "/data".
Proof. apply (joinPaths_empty_first "/" "data"). vm_compute. discriminate. Defined.

(** ** Case-insensitive resolver *)

Lemma prefix_n_prefix_n (a b : nat) (s : string) :
  prefix_n a (prefix_n b s) = prefix_n (Nat.min a b) s.
Proof.
  revert b s; induction a as [|a IH]; intros [|b] [|c s]; simpl; try reflexivity.
  now rewrite IH.
Qed.

Lemma last_match_app (name : string) (types : N) (before after : list dirent) :
  last_match name types (before ++ after)%list =
  match last_match name types after with
  | Some e => Some e
  | None => last_match name types before
  end.
Proof.
  induction before as [|b before IH]; simpl.
  - destruct (last_match name types after); reflexivity.
  - rewrite IH. destruct (last_match name types after); reflexivity.
Qed.

Lemma last_match_none (name : string) (types : N) (entries : list dirent) :
  (forall e, In e entries -> entry_matches name types e = false) ->
  last_match name types entries = None.
Proof.
  induction entries as [|e entries IH]; simpl; intros H; [reflexivity|].
  rewrite IH by auto. now rewrite (H e) by auto.
Qed.

(** The [readdir] loop keeps the last match: each match overwrites
    [nameBuf]. *)
Lemma scan_keeps_last (name : string) (types : N) (nameBufSize : nat)
    (entries : list dirent) (found : option string) :
  0 < nameBufSize ->
  fold_left (scan_step name types nameBufSize) entries (Returns found) =
  Returns match last_match name types entries with
          | Some e => Some (prefix_n (nameBufSize - 1) (d_name e))
          | None => found
          end.
Proof.
  intros Hn. revert found.
  induction entries as [|e entries IH]; intros found; cbn [fold_left last_match];
    [reflexivity|].
  assert (scan_step name types nameBufSize (Returns found) e =
          Returns (if entry_matches name types e
                   then Some (prefix_n (nameBufSize - 1) (d_name e))
                   else found)) as ->.
  { unfold scan_step, strncpy_cut. simpl bind.
    destruct (Nat.ltb_spec (nameBufSize - 1) nameBufSize) as [_|]; [|lia].
    destruct (entry_matches name types e); simpl bind; [|reflexivity].
    rewrite prefix_n_prefix_n. do 3 f_equal. lia. }
  rewrite IH.
  destruct (last_match name types entries); [reflexivity|].
  destruct (entry_matches name types e); reflexivity.
Qed.

Section ResolverProperties.

Variable PATH_SEPARATOR : ascii.
Variable sys_opendir : string -> option (list dirent).
Local Abbreviation find := (findObjectCaseInsensitive PATH_SEPARATOR sys_opendir).

(** A name without a directory in it is looked up by the [readdir] loop. *)
Lemma findObjectCaseInsensitive_scan directory name files subdirs nameBufSize :
  directory_in_name name = None ->
  find directory name files subdirs nameBufSize =
  match sys_opendir directory with
  | Some entries =>
      fold_left (scan_step name (objectTypes files subdirs) nameBufSize)
        entries (Returns None)
  | None => Returns None
  end.
Proof.
  intros H. rewrite findObjectCaseInsensitive_equation_1.
  generalize (Logic.inspect (directory_in_name name)).
  intros [[k|] Hk]; [congruence|].
  now rewrite findObjectCaseInsensitive_clause_1_equation_2.
Qed.

(** A name with a directory in it: the directory first, then the rest. *)
Lemma findObjectCaseInsensitive_split directory name files subdirs nameBufSize dirNameLen :
  directory_in_name name = Some dirNameLen ->
  find directory name files subdirs nameBufSize =
  if Nat.ltb dirNameLen 128 then
    match find directory (prefix_n dirNameLen name) false true 128 with
    | Returns (Some actualSubdirName) =>
        match joinPaths_buf PATH_SEPARATOR directory actualSubdirName 128 with
        | Returns newDirectory =>
            match find newDirectory (suffix_from (dirNameLen + 1) name)
                    files subdirs 128 with
            | Returns (Some pathInSubdir) =>
                nameBuf <- joinPaths_buf PATH_SEPARATOR actualSubdirName
                             pathInSubdir nameBufSize ;;
                Returns (Some nameBuf)
            | other => other
            end
        | Throws e => Throws e
        | Aborts => Aborts
        | Undefined => Undefined
        end
    | other => other
    end
  else Undefined.
Proof.
  intros H. rewrite findObjectCaseInsensitive_equation_1.
  generalize (Logic.inspect (directory_in_name name)).
  intros [[k|] Hk]; [|congruence].
  rewrite findObjectCaseInsensitive_clause_1_equation_1.
  assert (k = dirNameLen) as -> by congruence. reflexivity.
Qed.

(** The result of the [readdir] loop, by the last match of the listing. *)
Lemma findObjectCaseInsensitive_scan_result directory name files subdirs nameBufSize :
  directory_in_name name = None ->
  0 < nameBufSize ->
  find directory name files subdirs nameBufSize =
  Returns match sys_opendir directory with
          | Some entries =>
              match last_match name (objectTypes files subdirs) entries with
              | Some e => Some (prefix_n (nameBufSize - 1) (d_name e))
              | None => None
              end
          | None => None
          end.
Proof.
  intros H Hn. rewrite findObjectCaseInsensitive_scan by assumption.
  destruct (sys_opendir directory); [|reflexivity].
  now apply scan_keeps_last.
Qed.


Lemma strstr_slash_prefix name k :
  strstr_slash name = Some k -> strstr_slash (prefix_n k name) = None.
Proof.
  revert k; induction name as [|c rest IH]; simpl; intros k H; [discriminate|].
  destruct (Ascii.eqb c "/") eqn:Hc.
  - now injection H as <-.
  - destruct (strstr_slash rest) as [j|]; [|discriminate].
    injection H as <-. simpl. now rewrite Hc, (IH j eq_refl).
Qed.

(** The part of the name before its first ['/'] has no directory in it. *)
Lemma directory_in_name_head name dirNameLen :
  directory_in_name name = Some dirNameLen ->
  directory_in_name (prefix_n dirNameLen name) = None.
Proof.
  unfold directory_in_name at 1.
  destruct (strstr_slash name) as [j|] eqn:E; [|discriminate].
  destruct (Nat.ltb 0 j && negb (Ascii.eqb (char_at name (j + 1)) NUL));
    [|discriminate].
  intros [= <-]. unfold directory_in_name. now rewrite (strstr_slash_prefix _ _ E).
Qed.

(** Within the 128 bytes of [newDirectory]: the directory part of the
    name is looked up in [directory] among the subdirectories only; when
    it is found, the rest of the name is looked up in that subdirectory
    with the caller's flags, and the two names are joined; when either
    is not found, or a directory does not open, the result is not-found. *)
Lemma findObjectCaseInsensitive_directory_then_rest
    directory name files subdirs nameBufSize dirNameLen :
  directory_in_name name = Some dirNameLen ->
  dirNameLen < 128 ->
  find directory name files subdirs nameBufSize =
  match sys_opendir directory with
  | None => Returns None
  | Some entries =>
      match last_match (prefix_n dirNameLen name) (objectTypes false true) entries with
      | None => Returns None
      | Some e =>
          let actualSubdirName := prefix_n 127 (d_name e) in
          newDirectory <- joinPaths_buf PATH_SEPARATOR directory actualSubdirName 128 ;;
          found <- find newDirectory (suffix_from (dirNameLen + 1) name)
                     files subdirs 128 ;;
          match found with
          | Some pathInSubdir =>
              nameBuf <- joinPaths_buf PATH_SEPARATOR actualSubdirName
                           pathInSubdir nameBufSize ;;
              Returns (Some nameBuf)
          | None => Returns None
          end
      end
  end.
Proof.
  intros Hsplit Hlen.
  rewrite (findObjectCaseInsensitive_split _ _ _ _ _ _ Hsplit).
  destruct (Nat.ltb_spec dirNameLen 128); [|lia].
  rewrite (findObjectCaseInsensitive_scan_result directory (prefix_n dirNameLen name))
    by (auto using directory_in_name_head; lia).
  destruct (sys_opendir directory) as [entries|]; [|reflexivity].
  destruct (last_match _ _ entries) as [e|]; [|reflexivity].
  cbv zeta. change (128 - 1) with 127.
  destruct (joinPaths_buf PATH_SEPARATOR directory (prefix_n 127 (d_name e)) 128)
    as [newDirectory| | |]; reflexivity.
Qed.

Lemma scan_no_exception name types nameBufSize entries :
  forall state, no_exception state ->
    no_exception (fold_left (scan_step name types nameBufSize) entries state).
Proof.
  induction entries as [|e entries IH]; intros state H; [exact H|].
  cbn [fold_left]. apply IH.
  destruct state; try contradiction; [|exact I].
  unfold scan_step, strncpy_cut. simpl bind.
  destruct (entry_matches name types e); [|exact I].
  destruct (Nat.ltb (nameBufSize - 1) nameBufSize); exact I.
Qed.

Lemma joinPaths_buf_no_exception first second size :
  no_exception (joinPaths_buf PATH_SEPARATOR first second size).
Proof.
  rewrite joinPaths_buf_cases. cbv zeta.
  destruct (_ && _); exact I.
Qed.

(** The resolver reports failure by its result only: it never throws. *)
Lemma findObjectCaseInsensitive_no_exception directory name files subdirs nameBufSize :
  no_exception (find directory name files subdirs nameBufSize).
Proof.
  remember (String.length name) as len eqn:Hlen.
  revert directory name files subdirs nameBufSize Hlen.
  induction len as [len IH] using lt_wf_ind.
  intros directory name files subdirs nameBufSize ->.
  destruct (directory_in_name name) as [k|] eqn:E.
  - rewrite (findObjectCaseInsensitive_split _ _ _ _ _ _ E).
    destruct (Nat.ltb k 128); [|exact I].
    pose proof (directory_in_name_lt _ _ E) as Hk.
    assert (no_exception (find directory (prefix_n k name) false true 128)) as H1.
    { eapply IH; [|reflexivity]. rewrite length_prefix_n. lia. }
    destruct (find directory (prefix_n k name) false true 128)
      as [[actualSubdirName|]| | |]; try exact H1.
    pose proof (joinPaths_buf_no_exception directory actualSubdirName 128) as H2.
    destruct (joinPaths_buf PATH_SEPARATOR directory actualSubdirName 128)
      as [newDirectory| | |]; try exact H2.
    assert (no_exception
              (find newDirectory (suffix_from (k + 1) name) files subdirs 128)) as H3.
    { eapply IH; [|reflexivity]. rewrite length_suffix_from. lia. }
    destruct (find newDirectory (suffix_from (k + 1) name) files subdirs 128)
      as [[pathInSubdir|]| | |]; try exact H3.
    pose proof (joinPaths_buf_no_exception actualSubdirName pathInSubdir nameBufSize) as H4.
    destruct (joinPaths_buf PATH_SEPARATOR actualSubdirName pathInSubdir nameBufSize);
      exact H4.
  - rewrite (findObjectCaseInsensitive_scan _ _ _ _ _ E).
    destruct (sys_opendir directory); [|exact I].
    apply scan_no_exception. exact I.
Qed.

(** C5 (the code departs from it): a name whose directory part has 128
    characters or more makes the resolver store the terminator of
    [newDirectory] outside the array, which is undefined behaviour and
    neither a path nor not-found. *)
Theorem findObjectCaseInsensitive_long_directory_name
    directory name files subdirs nameBufSize dirNameLen :
  directory_in_name name = Some dirNameLen ->
  128 <= dirNameLen ->
  find directory name files subdirs nameBufSize = Undefined.
Proof.
  intros Hsplit Hlen.
  rewrite (findObjectCaseInsensitive_split _ _ _ _ _ _ Hsplit).
  destruct (Nat.ltb_spec dirNameLen 128); [lia | reflexivity].
Qed.

(** The same array overflows when the directory and the subdirectory found
    in it do not fit together. *)
Lemma findObjectCaseInsensitive_long_directory
    directory name files subdirs nameBufSize dirNameLen entries e :
  directory_in_name name = Some dirNameLen ->
  dirNameLen < 128 ->
  sys_opendir directory = Some entries ->
  last_match (prefix_n dirNameLen name) (objectTypes false true) entries = Some e ->
  128 <= String.length directory + String.length (prefix_n 127 (d_name e)) ->
  find directory name files subdirs nameBufSize = Undefined.
Proof.
  intros Hsplit Hlen Hdir He Hlong.
  rewrite (findObjectCaseInsensitive_directory_then_rest _ _ _ _ _ _ Hsplit Hlen).
  rewrite Hdir, He. cbv zeta. rewrite joinPaths_buf_cases. cbv zeta.
  rewrite !length_append.
  case_ltb; [lia|]. now rewrite andb_false_r.
Qed.

End ResolverProperties.

(** ** Opening a file for reading *)

Section LayeredOpenProperties.

Variable PATH_SEPARATOR : ascii.
Variable CASE_SENSITIVE_FS : bool.
Variable s_dataDir : string.
Variable sys_open : string -> list oflag -> Z.
Variable sys_opendir : string -> option (list dirent).
Variable sys_fdopen : Z -> string -> option FILE.
Variable OpenFileFromLibrary : string -> option LibraryFile.

Local Abbreviation resolve :=
  (fun filename => findObjectCaseInsensitive PATH_SEPARATOR sys_opendir
                     s_dataDir filename true false 128).
Local Abbreviation in_data_dir := (data_dir_path s_dataDir).
Local Abbreviation OpenFileInDataDirFD :=
  (OpenFileInDataDirFD PATH_SEPARATOR CASE_SENSITIVE_FS s_dataDir sys_open sys_opendir).
Local Abbreviation getSGPFileFromFD := (getSGPFileFromFD sys_fdopen).
Local Abbreviation openForReadingSmart :=
  (openForReadingSmart PATH_SEPARATOR CASE_SENSITIVE_FS s_dataDir sys_open
     sys_opendir sys_fdopen OpenFileFromLibrary).
Local Abbreviation exhausted :=
  (data_dir_exhausted PATH_SEPARATOR CASE_SENSITIVE_FS s_dataDir sys_open sys_opendir).

Lemma GetFileOpenModes_read : GetFileOpenModes FILE_ACCESS_READ = Returns ("rb", [O_RDONLY]).
Proof. reflexivity. Qed.

Lemma getSGPFileFromFD_opened (fd : Z) (filename : string) :
  (0 <= fd)%Z ->
  getSGPFileFromFD fd filename "rb" = real_file_handle sys_fdopen fd filename.
Proof.
  intros H. unfold_fn getSGPFileFromFD. unfold real_file_handle.
  destruct (Z.ltb_spec fd 0); [lia | reflexivity].
Qed.

Lemma getSGPFileFromFD_failed (fd : Z) (filename fmode : string) :
  (fd < 0)%Z -> getSGPFileFromFD fd filename fmode = Throws (NotFound filename).
Proof.
  intros H. unfold_fn getSGPFileFromFD.
  destruct (Z.ltb_spec fd 0); [reflexivity | lia].
Qed.

(** The data directory supplies the descriptor of the formatted path when
    that opens. *)
Lemma OpenFileInDataDirFD_direct (filename : string) :
  (0 <= sys_open (in_data_dir filename) [O_RDONLY])%Z ->
  OpenFileInDataDirFD filename [O_RDONLY]
  = Returns (sys_open (in_data_dir filename) [O_RDONLY]).
Proof.
  intros H. unfold_fn OpenFileInDataDirFD. fold (in_data_dir filename).
  destruct (Z.ltb_spec (sys_open (in_data_dir filename) [O_RDONLY]) 0);
    [lia | reflexivity].
Qed.

(** It retries once, with the name the resolver found. *)
Lemma OpenFileInDataDirFD_retry (filename newFileName : string) :
  (sys_open (in_data_dir filename) [O_RDONLY] < 0)%Z ->
  CASE_SENSITIVE_FS = true ->
  resolve filename = Returns (Some newFileName) ->
  OpenFileInDataDirFD filename [O_RDONLY]
  = Returns (sys_open (in_data_dir newFileName) [O_RDONLY]).
Proof.
  intros H Hcs Hres. unfold_fn OpenFileInDataDirFD. fold (in_data_dir filename).
  destruct (Z.ltb_spec (sys_open (in_data_dir filename) [O_RDONLY]) 0); [|lia].
  rewrite Hcs, Hres. reflexivity.
Qed.

Lemma OpenFileInDataDirFD_exhausted (filename : string) :
  exhausted filename ->
  exists d, (d < 0)%Z /\ OpenFileInDataDirFD filename [O_RDONLY] = Returns d.
Proof.
  intros [H Hrest]. unfold_fn OpenFileInDataDirFD. fold (in_data_dir filename).
  destruct (Z.ltb_spec (sys_open (in_data_dir filename) [O_RDONLY]) 0); [|lia].
  destruct Hrest as [Hcs | [Hnone | [newFileName [Hsome Hfail]]]].
  - rewrite Hcs. eauto.
  - destruct CASE_SENSITIVE_FS; [rewrite Hnone|]; simpl; eauto.
  - destruct CASE_SENSITIVE_FS; [rewrite Hsome|]; simpl; eauto.
Qed.

Lemma openForReadingSmart_unfold (filename : string) (useSmartLookup : bool) :
  openForReadingSmart filename useSmartLookup =
  let d := sys_open filename [O_RDONLY] in
  if Z.ltb d 0 && useSmartLookup then
    d <- OpenFileInDataDirFD filename [O_RDONLY] ;;
    if Z.ltb d 0 then
      match OpenFileFromLibrary filename with
      | Some libFile => Returns (ArchiveEntry libFile)
      | None => getSGPFileFromFD d filename "rb"
      end
    else getSGPFileFromFD d filename "rb"
  else getSGPFileFromFD d filename "rb".
Proof. reflexivity. Qed.

End LayeredOpenProperties.

Lemma data_dir_path_fits (s_dataDir name : string) :
  String.length (path_in_data_dir s_dataDir name) < 512 ->
  data_dir_path s_dataDir name = path_in_data_dir s_dataDir name.
Proof.
  intros Hfit. unfold data_dir_path, snprintf, path_in_data_dir in *.
  apply prefix_n_all. lia.
Qed.

Lemma path_in_data_dir_joinPaths (s_dataDir name : string) :
  ends_with "/" s_dataDir = false ->
  begins_with "/" name = false ->
  path_in_data_dir s_dataDir name = joinPaths "/" s_dataDir name.
Proof.
  intros Ha Hb. rewrite joinPaths_cases, Ha, Hb. reflexivity.
Qed.

Section LayeredOpenClaims.

Variable CASE_SENSITIVE_FS : bool.
Variable s_dataDir : string.
Variable sys_open : string -> list oflag -> Z.
Variable sys_opendir : string -> option (list dirent).
Variable sys_fdopen : Z -> string -> option FILE.
Variable OpenFileFromLibrary : string -> option LibraryFile.

Local Abbreviation openForReadingSmart :=
  (openForReadingSmart "/" CASE_SENSITIVE_FS s_dataDir sys_open
     sys_opendir sys_fdopen OpenFileFromLibrary).
Local Abbreviation absent :=
  (absent_from_data_dir CASE_SENSITIVE_FS s_dataDir sys_open sys_opendir).

Lemma absent_from_data_dir_exhausted (filename : string) :
  String.length (path_in_data_dir s_dataDir filename) < 512 ->
  absent filename ->
  data_dir_exhausted "/" CASE_SENSITIVE_FS s_dataDir sys_open sys_opendir filename.
Proof.
  intros Hfit [Hopen Hrest]. split.
  - now rewrite data_dir_path_fits.
  - destruct Hrest as [H | [H | [newFileName [H [Hnew Hfail]]]]];
      [now left | right; now left | right; right].
    exists newFileName. split; [exact H|]. now rewrite data_dir_path_fits.
Qed.



End LayeredOpenClaims.



(** ** The unified file handle *)

Local Open Scope N_scope.

(** [fread] of one item of [size] bytes reports the item only when it
    stored all of its bytes. *)
Lemma fread_one_item (size : N) (stream : FILE) :
  let '(data, items, _) := fread size 1 stream in
  items = 0 \/ (items = 1 /\ 0 < size /\ N.of_nat (length data) = size).
Proof.
  unfold fread. rewrite N.mul_1_r.
  destruct (N.eqb_spec size 0) as [->|Hsize]; [now left|].
  set (left_ := N.of_nat (length (file_bytes stream)) - file_pos stream).
  set (got := if can_read stream then N.min (N.min size left_) (io_budget stream) else 0).
  assert (got <= size) as Hle by (subst got; destruct (can_read stream); lia).
  assert (got <= left_) as Hleft by (subst got; destruct (can_read stream); lia).
  destruct (N.eq_dec got size) as [Heq|Hne].
  - right. rewrite Heq, N.div_same by assumption.
    repeat split; [lia|].
    rewrite length_firstn, length_skipn. subst left_. lia.
  - left. apply N.div_small. lia.
Qed.

(** What [fwrite] of one item of [size] bytes reports: the item, when the
    stream is open for writing, the item is not empty and its bytes fit
    the buffer or the device takes them all; nothing otherwise. *)
Lemma fwrite_one_item (ptr : nat -> Byte.byte) (size : N) (stream : FILE) :
  fst (fwrite ptr size 1 stream) =
  if (0 <? size) && can_write stream
     && ((size <=? buffer_room stream) || (size <=? io_budget stream))
  then 1 else 0.
Proof.
  unfold fwrite. rewrite N.mul_1_r.
  destruct (N.eqb_spec size 0) as [->|Hsize]; [reflexivity|].
  destruct (N.ltb_spec 0 size); [|lia].
  destruct (can_write stream); cbn [andb]; [|reflexivity].
  destruct (N.leb_spec size (buffer_room stream)); cbn [orb].
  - destruct (N.eqb_spec size 0); [lia|]. cbn [fst]. now apply N.div_same.
  - destruct (N.leb_spec size (io_budget stream)).
    + rewrite N.min_l by lia.
      destruct (N.eqb_spec size 0); [lia|]. cbn [fst]. now apply N.div_same.
    + rewrite N.min_r by lia.
      destruct (N.eqb_spec (io_budget stream) 0); [reflexivity|].
      cbn [fst]. apply N.div_small. lia.
Qed.

(** A write that the stream takes in full: where the bytes go and what
    is left of the buffer and of the device's budget. *)
Lemma fwrite_in_full (ptr : nat -> Byte.byte) (n : N) (stream : FILE) :
  can_write stream = true ->
  0 < n ->
  n <= buffer_room stream \/ n <= io_budget stream ->
  let start :=
    if append_mode stream then N.of_nat (length (file_bytes stream))
    else file_pos stream in
  fwrite ptr n 1 stream =
  (1,
   {| file_bytes :=
        (firstn (N.to_nat start) (file_bytes stream)
         ++ repeat Byte.x00 (N.to_nat start - length (file_bytes stream))
         ++ map ptr (seq 0 (N.to_nat n))
         ++ skipn (N.to_nat start + N.to_nat n) (file_bytes stream))%list;
      file_pos := start + n;
      can_read := can_read stream;
      can_write := true;
      append_mode := append_mode stream;
      buffer_room :=
        if n <=? buffer_room stream then buffer_room stream - n else buffer_room stream;
      io_budget :=
        if n <=? buffer_room stream then io_budget stream else io_budget stream - n |}).
Proof.
  intros Hw Hn Hfit. cbv zeta. unfold fwrite. rewrite N.mul_1_r, Hw.
  destruct (N.eqb_spec n 0); [lia|].
  assert ((if n <=? buffer_room stream then n else N.min n (io_budget stream)) = n) as ->.
  { destruct (N.leb_spec n (buffer_room stream)); [reflexivity | lia]. }
  destruct (N.eqb_spec n 0); [lia|].
  rewrite N.div_same by lia. reflexivity.
Qed.

Lemma takes_in_full_spec (n : N) (writable : bool) (room budget : N) :
  (0 <? n) && writable && ((n <=? room) || (n <=? budget)) = true
  <-> 0 < n /\ writable = true /\ (n <= room \/ n <= budget).
Proof.
  rewrite !andb_true_iff, orb_true_iff, N.ltb_lt, !N.leb_le. tauto.
Qed.

(** Within the 32 bits that the archive's read takes, and for every count
    on a real file, a read supplies all the bytes asked for or throws. *)
Lemma FileRead_all_or_nothing (f : SGPFile) (uiBytesToRead : N) :
  (exists file, f = RealFile file)
  \/ ((exists lib, f = ArchiveEntry lib) /\ uiBytesToRead < 2 ^ 32) ->
  match snd (FileRead f uiBytesToRead) with
  | Returns pDest => N.of_nat (length pDest) = uiBytesToRead
  | Throws e => e = ReadFailure
  | Aborts | Undefined => False
  end.
Proof.
  intros [[file ->] | [[lib ->] Hsmall]]; unfold FileRead; simpl.
  - pose proof (fread_one_item uiBytesToRead file) as H.
    destruct (fread uiBytesToRead 1 file) as [[data items] file'].
    destruct H as [-> | [-> [_ H]]]; simpl; [reflexivity | exact H].
  - unfold to_UINT32. rewrite N.mod_small by assumption.
    unfold LoadDataFromLibrary.
    destruct (N.leb_spec (uiFilePosInFile lib + uiBytesToRead)
                (N.of_nat (length (entry_bytes lib)))) as [H|H]; simpl;
      [|reflexivity].
    rewrite length_firstn, length_skipn. lia.
Qed.

(** C6 (the code departs from it): a read from an archive entry passes the
    count through [(UINT32)], so a count and the same count plus 2^32 are
    read alike; asked for 2^32 + 1 bytes the call supplies one byte and
    returns as if all had been read. *)
Theorem FileRead_archive_truncates_count :
  (forall lib uiBytesToRead,
      FileRead (ArchiveEntry lib) (2 ^ 32 + uiBytesToRead)
      = FileRead (ArchiveEntry lib) uiBytesToRead)
  /\ FileRead (ArchiveEntry sample_entry) (2 ^ 32 + 1)
     = (ArchiveEntry {| entry_bytes := entry_bytes sample_entry; uiFilePosInFile := 1 |},
        Returns [Byte.x52]).
Proof.
  assert (forall lib n, FileRead (ArchiveEntry lib) (2 ^ 32 + n)
                        = FileRead (ArchiveEntry lib) n) as Hsame.
  { intros lib n. unfold FileRead, to_UINT32. cbn [flags u ArchiveEntry].
    replace ((2 ^ 32 + n) mod 2 ^ 32) with (n mod 2 ^ 32); [reflexivity|].
    symmetry. rewrite N.add_comm.
    exact (N.Div0.mod_add n 1 (2 ^ 32)). }
  split; [exact Hsame|].
  rewrite Hsame. reflexivity.
Qed.

Lemma fread_zero_size (nmemb : N) (stream : FILE) :
  fread 0 nmemb stream = ([], 0, stream).
Proof. reflexivity. Qed.

(** C10: a read of zero bytes from a real file throws the read error:
    [fread] of one item of size zero reports no item, and one is required. *)
Theorem FileRead_zero_bytes (file : FILE) :
  FileRead (RealFile file) 0 = (RealFile file, Throws ReadFailure).
Proof.
  unfold FileRead, RealFile. cbn [flags u].
  rewrite fread_zero_size. reflexivity.
Qed.



Local Close Scope N_scope.

(** ** Erasing the contents of a directory *)

Lemma fs_lookup_remove (q t : string) (fs : filesystem) :
  fs_lookup q (fs_remove t fs) = if String.eqb q t then None else fs_lookup q fs.
Proof.
  induction fs as [|[p i] fs IH]; simpl.
  - now destruct (String.eqb q t).
  - destruct (String.eqb_spec p t) as [->|Hpt]; simpl.
    + rewrite IH. destruct (String.eqb_spec q t) as [->|Hqt]; [reflexivity|].
      destruct (String.eqb_spec t q); [congruence | reflexivity].
    + rewrite IH. destruct (String.eqb_spec p q) as [->|Hpq]; [|reflexivity].
      destruct (String.eqb_spec q t); [congruence | reflexivity].
Qed.

Section EraseDirectoryProperties.

Variable PATH_SEPARATOR : ascii.
Variable sys_glob : filesystem -> string -> option (list string).
Variable sys_unlink_missing : filesystem -> string -> errno.

Local Abbreviation target := (erase_target PATH_SEPARATOR).
Local Abbreviation loop := (EraseDirectory_loop PATH_SEPARATOR sys_unlink_missing).
Local Abbreviation EraseDirectory :=
  (EraseDirectory PATH_SEPARATOR sys_glob sys_unlink_missing).

(** One turn of the loop: a refusal ends the operation; otherwise the
    entry is removed when [unlink] removes it, and passed over when it is
    a directory or is gone. *)
Lemma EraseDirectory_loop_step (path entry : string) (rest : list string)
    (fs : filesystem) :
  loop path (entry :: rest) fs =
  if refused sys_unlink_missing fs (target path entry) then (fs, Throws DeleteFailure)
  else loop path rest
         (if deletable fs (target path entry)
          then fs_remove (target path entry) fs else fs).
Proof.
  cbn [EraseDirectory_loop]. cbv zeta. fold (target path entry).
  unfold FileDelete, unlink, refused, deletable, FileGetAttributes.
  destruct (fs_lookup (target path entry) fs) as [i|] eqn:E.
  - destruct (is_directory i) eqn:Hdir; simpl.
    + rewrite E, Hdir. now destruct (owner_writable i).
    + destruct (unlink_refusal i) as [[]|]; try reflexivity;
        rewrite E, Hdir; now destruct (owner_writable i).
  - destruct (sys_unlink_missing fs (target path entry)); try reflexivity;
      now rewrite E.
Qed.

Lemma lookup_after_step (fs : filesystem) (t q : string) :
  fs_lookup q (if deletable fs t then fs_remove t fs else fs) =
  if String.eqb q t && deletable fs t then None else fs_lookup q fs.
Proof.
  destruct (deletable fs t).
  - rewrite fs_lookup_remove, andb_true_r. reflexivity.
  - rewrite andb_false_r. reflexivity.
Qed.

(** With every entry's file there, none of them twice and no refusal
    among them, the loop goes through all the entries and returns; what
    [unlink] removes of them is gone and every other path is as before. *)
Lemma EraseDirectory_loop_returns (path : string) (gl_pathv : list string) :
  forall fs,
    NoDup (map (target path) gl_pathv) ->
    (forall t, In t (map (target path) gl_pathv) -> fs_lookup t fs <> None) ->
    forallb (fun t => negb (refused sys_unlink_missing fs t)) (map (target path) gl_pathv) = true ->
    exists fs',
      loop path gl_pathv fs = (fs', Returns tt)
      /\ forall p, fs_lookup p fs' =
                   if mem p (map (target path) gl_pathv) && deletable fs p
                   then None else fs_lookup p fs.
Proof.
  induction gl_pathv as [|entry rest IH]; intros fs Hnodup Hthere Hok.
  - exists fs. split; [reflexivity|]. intros p. reflexivity.
  - cbn [map forallb] in Hok. apply andb_true_iff in Hok as [Ht Hrest].
    apply negb_true_iff in Ht.
    cbn [map] in Hnodup. apply NoDup_cons_iff in Hnodup as [Hfresh Hnodup].
    rewrite EraseDirectory_loop_step, Ht.
    set (t := target path entry) in *.
    set (fs1 := if deletable fs t then fs_remove t fs else fs).
    assert (forall q, fs_lookup q fs1 =
                      if String.eqb q t && deletable fs t then None else fs_lookup q fs)
      as Hfs1 by (intros q; apply lookup_after_step).
    assert (forall q, In q (map (target path) rest) -> fs_lookup q fs1 = fs_lookup q fs)
      as Hkept.
    { intros q Hq. rewrite Hfs1.
      destruct (String.eqb_spec q t) as [->|_]; [contradiction | reflexivity]. }
    destruct (IH fs1 Hnodup) as [fs' [Hrun Hlook]].
    { intros q Hq. rewrite (Hkept q Hq). apply Hthere. now right. }
    { apply forallb_forall. intros q Hq.
      rewrite forallb_forall in Hrest. specialize (Hrest q Hq).
      assert (fs_lookup q fs <> None) as Hq' by (apply Hthere; now right).
      unfold refused in *. rewrite (Hkept q Hq).
      destruct (fs_lookup q fs); [exact Hrest | contradiction]. }
    exists fs'. split; [exact Hrun|].
    intros p. rewrite Hlook. cbn [map mem existsb]. fold (mem p (map (target path) rest)).
    unfold deletable at 1. rewrite !Hfs1. fold t.
    destruct (String.eqb_spec p t) as [->|Hne]; simpl.
    + destruct (deletable fs t) eqn:Hd; simpl.
      * now rewrite andb_false_r.
      * fold (deletable fs t). rewrite Hd, andb_false_r. reflexivity.
    + reflexivity.
Qed.

Lemma EraseDirectory_loop_app (path : string) (before after : list string) :
  forall fs,
    loop path (before ++ after)%list fs =
    match loop path before fs with
    | (fs1, Returns _) => loop path after fs1
    | other => other
    end.
Proof.
  induction before as [|entry before IH]; intros fs.
  - reflexivity.
  - rewrite <- app_comm_cons, !EraseDirectory_loop_step.
    destruct (refused sys_unlink_missing fs (target path entry)); [reflexivity | apply IH].
Qed.

End EraseDirectoryProperties.

Lemma NoDup_map_injective {A B : Type} (f : A -> B) (l : list A) :
  (forall a b, f a = f b -> a = b) -> NoDup l -> NoDup (map f l).
Proof.
  intros Hinj. induction 1 as [|a l Hfresh Hnodup IH]; cbn [map]; constructor;
    [|exact IH].
  intros Hin. apply in_map_iff in Hin as [b [Hb Hin]].
  apply Hinj in Hb. now subst b.
Qed.

Lemma strstr_slash_strrchr (name : string) :
  strstr_slash name = None -> strrchr name "/" = None.
Proof.
  induction name as [|c name IH]; simpl; [reflexivity|].
  destruct (Ascii.eqb c "/"); [discriminate|].
  destruct (strstr_slash name); [discriminate|].
  intros _. now rewrite IH.
Qed.

Lemma strrchr_child (path name : string) :
  strstr_slash name = None ->
  strrchr (path ++ String "/" name) "/" = Some (String.length path).
Proof.
  intros Hname. induction path as [|c path IH]; simpl.
  - now rewrite (strstr_slash_strrchr name Hname).
  - now rewrite IH.
Qed.

Lemma suffix_from_child (path name : string) :
  suffix_from (String.length path + 1) (path ++ String "/" name) = name.
Proof. induction path as [|c path IH]; [reflexivity | exact IH]. Qed.

(** [Next] hands out the name of a child from its path. *)
Lemma FindFiles_Next_child (path name : string) :
  strstr_slash name = None ->
  FindFiles_Next "/" (child_path path name) = name.
Proof.
  intros Hname. unfold FindFiles_Next, child_path.
  change (path ++ "/" ++ name) with (path ++ String "/" name).
  rewrite strrchr_child by assumption. apply suffix_from_child.
Qed.

Lemma erase_target_child (path name : string) :
  strstr_slash name = None ->
  String.length (child_path path name) < 512 ->
  erase_target "/" path (child_path path name) = child_path path name.
Proof.
  intros Hname Hfit. unfold erase_target. rewrite FindFiles_Next_child by assumption.
  unfold snprintf, child_path in *. apply prefix_n_all. lia.
Qed.



(** * The properties on the sample installation *)


Lemma findObjectCaseInsensitive_long_directory_name_witness :
  findObjectCaseInsensitive "/" sample_opendir "data"
    (string_repeat "a" 128 ++ "/b") true false 128
  = Undefined.
Proof.
  apply (findObjectCaseInsensitive_long_directory_name "/" sample_opendir "data"
           (string_repeat "a" 128 ++ "/b") true false 128 128).
  - vm_compute. reflexivity.
  - lia.
Defined.





(** The run of the witness, and a run that a busy file ends. *)
Example EraseDirectory_sample :
  EraseDirectory "/" sample_glob sample_unlink_missing sample_fs "D"
  = ([("D/sub", sample_directory); ("D/sub/x.txt", sample_file); ("E/c.txt", sample_file)],
     Returns tt).
Proof. vm_compute. reflexivity. Qed.

Example EraseDirectory_refused :
  EraseDirectory "/" sample_glob sample_unlink_missing
    [("D/a.txt", sample_file); ("D/lock", sample_busy_file); ("D/b.txt", sample_file)] "D"
  = ([("D/lock", sample_busy_file); ("D/b.txt", sample_file)], Throws DeleteFailure).
Proof. vm_compute. reflexivity. Qed.

(** Runs of the resolver and of the buffer overload of [joinPaths]. *)
Example findObjectCaseInsensitive_sample :
  findObjectCaseInsensitive "/" sample_opendir "data" "maps/A1.dat" true false 128
  = Returns (Some "Maps/a1.dat").
Proof. vm_compute. reflexivity. Qed.

Example joinPaths_buf_sample :
  joinPaths_buf "/" "data" "/maps" 128 = Returns "data//maps"
  /\ joinPaths_buf "/" "data" "maps" 9 = Undefined.
Proof. split; reflexivity. Qed.

(** A read from a real file either supplies the bytes or throws. *)
Example FileRead_sample :
  snd (FileRead (RealFile sample_stream) 2) = Returns [Byte.x4a; Byte.x41]
  /\ snd (FileRead (RealFile sample_stream) 4) = Throws ReadFailure.
Proof. split; reflexivity. Qed.

(** * Further properties *)

(** ** Joining paths *)

Lemma char_at_last_append (a b : string) :
  b <> "" ->
  char_at (a ++ b) (String.length (a ++ b) - 1) = char_at b (String.length b - 1).
Proof.
  intros Hb. induction a as [|c a IH]; [reflexivity|].
  simpl append. simpl String.length. rewrite Nat.sub_succ, Nat.sub_0_r.
  rewrite <- IH. unfold char_at. simpl.
  destruct (String.length (a ++ b)) as [|m] eqn:E.
  - rewrite length_append in E. destruct b; [congruence | simpl in E; lia].
  - now rewrite Nat.sub_succ, Nat.sub_0_r.
Qed.

Lemma ends_with_append (sep : ascii) (a b : string) :
  b <> "" -> ends_with sep (a ++ b) = ends_with sep b.
Proof.
  intros Hb. unfold ends_with. rewrite char_at_last_append by assumption.
  rewrite length_append.
  destruct b as [|c b]; [congruence|]. simpl String.length.
  now replace (String.length a + S (String.length b) =? 0)%nat with false
    by (symmetry; apply Nat.eqb_neq; lia).
Qed.

Lemma begins_with_append (sep : ascii) (a b : string) :
  a <> "" -> begins_with sep (a ++ b) = begins_with sep a.
Proof. intros Ha. destruct a; [congruence | reflexivity]. Qed.

Lemma append_not_empty_r (a b : string) : b <> "" -> a ++ b <> "".
Proof.
  intros Hb H. apply (f_equal String.length) in H. rewrite length_append in H.
  destruct b; [congruence | simpl in H; lia].
Qed.

Section MorePathProperties.

Variable PATH_SEPARATOR : ascii.
Local Abbreviation join := (joinPaths PATH_SEPARATOR).

(** X1: joining three components gives the same path whichever two are
    joined first, as long as the middle one is not empty. *)
Theorem joinPaths_assoc (a b c : string) :
  b <> "" ->
  joinPaths PATH_SEPARATOR (joinPaths PATH_SEPARATOR a b) c
  = joinPaths PATH_SEPARATOR a (joinPaths PATH_SEPARATOR b c).
Proof.
  intros Hb.
  rewrite (joinPaths_cases _ a b), (joinPaths_cases _ b c).
  set (j1 := if ends_with PATH_SEPARATOR a || begins_with PATH_SEPARATOR b
             then "" else String PATH_SEPARATOR "").
  set (j2 := if ends_with PATH_SEPARATOR b || begins_with PATH_SEPARATOR c
             then "" else String PATH_SEPARATOR "").
  rewrite !joinPaths_cases.
  rewrite (begins_with_append PATH_SEPARATOR b (j2 ++ c) Hb). fold j1.
  rewrite (ends_with_append PATH_SEPARATOR a (j1 ++ b))
    by (now apply append_not_empty_r).
  rewrite (ends_with_append PATH_SEPARATOR j1 b Hb). fold j2.
  now rewrite !append_assoc.
Qed.

(** X2: a joined path is never empty, and is at most one character longer
    than its two components together. *)
Theorem joinPaths_not_empty (a b : string) :
  PATH_SEPARATOR <> NUL ->
  joinPaths PATH_SEPARATOR a b <> ""
  /\ String.length a + String.length b <= String.length (joinPaths PATH_SEPARATOR a b)
     <= String.length a + String.length b + 1.
Proof.
  intros Hsep. rewrite joinPaths_cases. split.
  - destruct a as [|c a]; [|discriminate].
    destruct b as [|c b].
    + change (ends_with PATH_SEPARATOR "") with false.
      change (begins_with PATH_SEPARATOR "") with (Ascii.eqb NUL PATH_SEPARATOR).
      destruct (Ascii.eqb_spec NUL PATH_SEPARATOR); [congruence | discriminate].
    + destruct (ends_with PATH_SEPARATOR "" || begins_with PATH_SEPARATOR (String c b));
        discriminate.
  - rewrite !length_append.
    destruct (ends_with PATH_SEPARATOR a || begins_with PATH_SEPARATOR b); simpl; lia.
Qed.

End MorePathProperties.

(** X3: the overload that fills a caller's array agrees with the one that
    returns the path when the second component does not begin with the
    separator; when it does, and the first does not end with one, the
    array gets a doubled separator where the returned path has one. *)
Theorem joinPaths_overloads (first second : string) (size : nat) :
  first <> "" ->
  String.length first + String.length second + 1 < size ->
  (begins_with "/" second = false ->
   joinPaths_buf "/" first second size = Returns (joinPaths "/" first second))
  /\ (begins_with "/" second = true -> ends_with "/" first = false ->
      joinPaths_buf "/" first second size = Returns (first ++ "/" ++ second)
      /\ joinPaths "/" first second = first ++ second).
Proof.
  intros Hne Hfit.
  assert (Nat.eqb (String.length first) 0 = false) as H0.
  { apply Nat.eqb_neq. destruct first; [congruence | simpl; lia]. }
  assert (forall mid, String.length mid <= 1 ->
            Nat.ltb (String.length (first ++ mid ++ second)) size = true) as Hlt.
  { intros mid Hmid. apply Nat.ltb_lt. rewrite !length_append. lia. }
  split.
  - intros Hb. rewrite joinPaths_buf_cases, joinPaths_cases, Hb, orb_false_r.
    destruct (ends_with "/" first); cbv zeta iota; rewrite H0, Hlt by (simpl; lia);
      reflexivity.
  - intros Hb He. rewrite joinPaths_buf_cases, joinPaths_cases, Hb, He.
    cbv zeta iota. rewrite H0, Hlt by (simpl; lia). split; reflexivity.
Qed.

Lemma joinPaths_assoc_witness :
  joinPaths "/" (joinPaths "/" "game" "data") "maps"
  = joinPaths "/" "game" (joinPaths "/" "data" "maps").
Proof. apply (joinPaths_assoc "/" "game" "data" "maps"). discriminate. Defined.

Lemma joinPaths_not_empty_witness :
  joinPaths "/" "" "" <> ""
  /\ 0 <= String.length (joinPaths "/" "" "") <= 1.
Proof. apply (joinPaths_not_empty "/" "" ""). discriminate. Defined.

Lemma joinPaths_overloads_witness :
  joinPaths_buf "/" "data" "/maps" 128 = Returns "data//maps"
  /\ joinPaths "/" "data" "/maps" = "data/maps".
Proof.
  apply (proj2 (joinPaths_overloads "data" "/maps" 128
                  ltac:(discriminate) ltac:(simpl; lia)));
    reflexivity.
Defined.

(** ** Looking a name up without regard to case *)

Lemma last_match_Some (name : string) (types : N) (entries : list dirent) (e : dirent) :
  last_match name types entries = Some e ->
  In e entries /\ entry_matches name types e = true.
Proof.
  induction entries as [|x entries IH]; simpl; [discriminate|].
  destruct (last_match name types entries) as [later|].
  - intros [= <-]. destruct (IH eq_refl). auto.
  - destruct (entry_matches name types x) eqn:Hx; [|discriminate].
    intros [= <-]. auto.
Qed.

Lemma last_match_None (name : string) (types : N) (entries : list dirent) :
  last_match name types entries = None ->
  forall e, In e entries -> entry_matches name types e = false.
Proof.
  induction entries as [|x entries IH]; simpl; [contradiction|].
  destruct (last_match name types entries) as [later|]; [discriminate|].
  destruct (entry_matches name types x) eqn:Hx; [discriminate|].
  intros _ e [<-|He]; auto.
Qed.

Lemma strcasecmp_refl (s : string) : strcasecmp s s = 0%Z.
Proof.
  induction s as [|c s IH]; simpl; [reflexivity|].
  now rewrite Z.sub_diag.
Qed.

Lemma strcasecmp_prefix_n (s d : string) (n : nat) :
  strcasecmp s d = 0%Z -> String.length s < n ->
  strcasecmp s (prefix_n n d) = 0%Z.
Proof.
  revert d n. induction s as [|c s IH]; intros [|x d] [|n] H Hn; simpl in *;
    try lia; try assumption.
  destruct (Z.eqb _ 0); [|assumption].
  apply IH; [assumption | lia].
Qed.

Section MoreResolverProperties.

Variable PATH_SEPARATOR : ascii.
Variable sys_opendir : string -> option (list dirent).
Local Abbreviation find := (findObjectCaseInsensitive PATH_SEPARATOR sys_opendir).

(** X4: for a name with no directory in it the resolver finds something
    exactly when the directory opens and lists an entry that passes the
    type mask and compares equal without regard to case; what it returns is
    the name of such an entry, as cut to the array. *)
Theorem findObjectCaseInsensitive_found_iff
    directory name files subdirs nameBufSize :
  directory_in_name name = None ->
  0 < nameBufSize ->
  exists found,
    findObjectCaseInsensitive PATH_SEPARATOR sys_opendir
        directory name files subdirs nameBufSize = Returns found
    /\ (found = None <->
        forall entries e,
          sys_opendir directory = Some entries -> In e entries ->
          entry_matches name (objectTypes files subdirs) e = false)
    /\ (forall nameBuf, found = Some nameBuf ->
        exists entries e,
          sys_opendir directory = Some entries /\ In e entries
          /\ entry_matches name (objectTypes files subdirs) e = true
          /\ nameBuf = prefix_n (nameBufSize - 1) (d_name e)).
Proof.
  intros Hname Hn.
  rewrite findObjectCaseInsensitive_scan_result by assumption.
  eexists. split; [reflexivity|].
  destruct (sys_opendir directory) as [entries|].
  - destruct (last_match name (objectTypes files subdirs) entries) as [e|] eqn:E.
    + destruct (last_match_Some _ _ _ _ E) as [Hin He].
      split; [split; [discriminate|]|].
      * intros H. rewrite (H entries e eq_refl Hin) in He. discriminate.
      * intros nameBuf [= <-]. exists entries, e. auto.
    + split; [split; [|reflexivity]|discriminate].
      intros _ entries' e [= <-]. now apply last_match_None.
  - split; [split; [|reflexivity]|discriminate].
    intros _ entries e H. discriminate.
Qed.

(** X5: a name spelled exactly as an entry of the directory is always
    found, when the entry passes the type mask. *)
Theorem findObjectCaseInsensitive_exact_name
    directory name files subdirs nameBufSize entries e :
  directory_in_name name = None ->
  0 < nameBufSize ->
  sys_opendir directory = Some entries ->
  In e entries ->
  d_name e = name ->
  N.land (d_type e) (objectTypes files subdirs) <> 0%N ->
  exists nameBuf,
    findObjectCaseInsensitive PATH_SEPARATOR sys_opendir
        directory name files subdirs nameBufSize = Returns (Some nameBuf).
Proof.
  intros Hname Hn Hdir Hin Hspell Htype.
  rewrite findObjectCaseInsensitive_scan_result by assumption. rewrite Hdir.
  destruct (last_match name (objectTypes files subdirs) entries) as [x|] eqn:E;
    [eexists; reflexivity|].
  pose proof (last_match_None _ _ _ E e Hin) as Hno.
  unfold entry_matches in Hno. rewrite Hspell, strcasecmp_refl in Hno.
  apply N.eqb_neq in Htype. rewrite Htype in Hno. discriminate.
Qed.

(** X6: entries whose type the system does not report ([DT_UNKNOWN], 0)
    are never matched: where every directory lists its entries so, the
    resolver never finds anything, whatever the name and the flags.  It
    returns not-found whenever the part of the name before the first ['/']
    has fewer than 128 characters; beyond that it does not return. *)
Theorem findObjectCaseInsensitive_unknown_types
    directory name files subdirs nameBufSize :
  (forall dir entries e,
      sys_opendir dir = Some entries -> In e entries -> d_type e = 0%N) ->
  0 < nameBufSize ->
  (forall nameBuf,
      findObjectCaseInsensitive PATH_SEPARATOR sys_opendir
          directory name files subdirs nameBufSize <> Returns (Some nameBuf))
  /\ ((forall dirNameLen, directory_in_name name = Some dirNameLen -> dirNameLen < 128) ->
      findObjectCaseInsensitive PATH_SEPARATOR sys_opendir
          directory name files subdirs nameBufSize = Returns None).
Proof.
  intros Hunknown Hn.
  assert (forall dir nm f s n, directory_in_name nm = None -> 0 < n ->
            find dir nm f s n = Returns None) as Hscan.
  { intros dir nm f s n Hnm Hpos.
    rewrite findObjectCaseInsensitive_scan_result by assumption.
    destruct (sys_opendir dir) as [entries|] eqn:Hdir; [|reflexivity].
    rewrite last_match_none; [reflexivity|].
    intros e He. unfold entry_matches.
    now rewrite (Hunknown dir entries e Hdir He). }
  assert (forall k, directory_in_name name = Some k -> k < 128 ->
            find directory name files subdirs nameBufSize = Returns None) as Hshort.
  { intros k E Hk.
    rewrite (findObjectCaseInsensitive_split _ _ _ _ _ _ _ _ E).
    destruct (Nat.ltb_spec k 128); [|lia].
    rewrite Hscan; [reflexivity | now apply directory_in_name_head | lia]. }
  split.
  - intros nameBuf.
    destruct (directory_in_name name) as [k|] eqn:E.
    + destruct (Nat.ltb_spec k 128) as [Hk|Hk].
      * rewrite (Hshort k eq_refl Hk). discriminate.
      * rewrite (findObjectCaseInsensitive_split _ _ _ _ _ _ _ _ E).
        destruct (Nat.ltb_spec k 128); [lia | discriminate].
    + rewrite Hscan by assumption. discriminate.
  - intros Hhead.
    destruct (directory_in_name name) as [k|] eqn:E; [|now apply Hscan].
    exact (Hshort k eq_refl (Hhead k eq_refl)).
Qed.

(** X7: the resolver reports failure through its result only: no call
    throws an exception or aborts. *)
Theorem findObjectCaseInsensitive_never_throws
    directory name files subdirs nameBufSize :
  (forall e, findObjectCaseInsensitive PATH_SEPARATOR sys_opendir
      directory name files subdirs nameBufSize <> Throws e)
  /\ findObjectCaseInsensitive PATH_SEPARATOR sys_opendir
      directory name files subdirs nameBufSize <> Aborts.
Proof.
  pose proof (findObjectCaseInsensitive_no_exception PATH_SEPARATOR sys_opendir
                directory name files subdirs nameBufSize) as H.
  split; [intros e|]; intros E; rewrite E in H; exact H.
Qed.

(** X8: the part of a name before its first ['/'], when it has fewer
    than 128 characters, is looked up among the subdirectories only: where
    the directory lists no subdirectory that equals it without regard to
    case, the result is not-found, whatever follows the ['/'] and whatever
    the caller's flags.  A regular file of that name does not count. *)
Theorem findObjectCaseInsensitive_directory_first
    directory name files subdirs nameBufSize dirNameLen :
  directory_in_name name = Some dirNameLen ->
  dirNameLen < 128 ->
  (forall entries e,
      sys_opendir directory = Some entries -> In e entries ->
      N.land (d_type e) DT_DIR = 0%N
      \/ strcasecmp (prefix_n dirNameLen name) (d_name e) <> 0%Z) ->
  findObjectCaseInsensitive PATH_SEPARATOR sys_opendir
      directory name files subdirs nameBufSize = Returns None.
Proof.
  intros Hsplit Hlen Hnone.
  rewrite (findObjectCaseInsensitive_directory_then_rest _ _ _ _ _ _ _ _ Hsplit Hlen).
  destruct (sys_opendir directory) as [entries|] eqn:Hdir; [|reflexivity].
  rewrite last_match_none; [reflexivity|].
  intros e He. unfold entry_matches.
  change (objectTypes false true) with DT_DIR.
  destruct (Hnone entries e eq_refl He) as [-> | Hdiff]; [reflexivity|].
  destruct (Z.eqb_spec (strcasecmp (prefix_n dirNameLen name) (d_name e)) 0);
    [contradiction | now rewrite andb_false_r].
Qed.

(** X9: [newDirectory] overflows when the directory, the ['/'] put after
    it and the subdirectory found in it need more than its 128 bytes: the
    resolver then has undefined behaviour. *)
Theorem findObjectCaseInsensitive_directory_overflow
    directory name files subdirs nameBufSize dirNameLen entries e :
  directory_in_name name = Some dirNameLen ->
  dirNameLen < 128 ->
  sys_opendir directory = Some entries ->
  last_match (prefix_n dirNameLen name) (objectTypes false true) entries = Some e ->
  ends_with PATH_SEPARATOR directory = false ->
  127 <= String.length directory + String.length (prefix_n 127 (d_name e)) ->
  findObjectCaseInsensitive PATH_SEPARATOR sys_opendir
      directory name files subdirs nameBufSize = Undefined.
Proof.
  intros Hsplit Hlen Hdir He Hend Hlong.
  rewrite (findObjectCaseInsensitive_directory_then_rest _ _ _ _ _ _ _ _ Hsplit Hlen).
  rewrite Hdir, He. cbv zeta. rewrite joinPaths_buf_cases, Hend. cbv zeta iota.
  rewrite !length_append. change (String.length "/") with 1.
  case_ltb; [lia|]. now rewrite andb_false_r.
Qed.

End MoreResolverProperties.

(** ** Opening files *)

Section MoreOpenProperties.

Variable PATH_SEPARATOR : ascii.
Variable CASE_SENSITIVE_FS : bool.
Variable s_dataDir : string.
Variable sys_open : string -> list oflag -> Z.
Variable sys_open3 : string -> list oflag -> N -> Z.
Variable sys_opendir : string -> option (list dirent).
Variable sys_fdopen : Z -> string -> option FILE.
Variable sys_fopen : string -> string -> option FILE.
Variable OpenFileFromLibrary : string -> option LibraryFile.
Variable CheckIfFileExistInLibrary : string -> bool.

Local Abbreviation in_data_dir := (data_dir_path s_dataDir).
Local Abbreviation open_in_data_dir :=
  (OpenFileInDataDirFD PATH_SEPARATOR CASE_SENSITIVE_FS s_dataDir sys_open sys_opendir).
Local Abbreviation open_smart :=
  (openForReadingSmart PATH_SEPARATOR CASE_SENSITIVE_FS s_dataDir sys_open
     sys_opendir sys_fdopen OpenFileFromLibrary).
Local Abbreviation stream_in_data_dir :=
  (openForReadingInDataDir PATH_SEPARATOR CASE_SENSITIVE_FS s_dataDir sys_open
     sys_opendir sys_fdopen).
Local Abbreviation exists_ := (FileExists s_dataDir sys_fopen CheckIfFileExistInLibrary).

Lemma getSGPFileFromFD_returns (fd : Z) (filename fmode : string) (h : SGPFile) :
  getSGPFileFromFD sys_fdopen fd filename fmode = Returns h ->
  (0 <= fd)%Z /\ exists file, sys_fdopen fd fmode = Some file /\ h = RealFile file.
Proof.
  unfold getSGPFileFromFD. destruct (Z.ltb_spec fd 0); [discriminate|].
  destruct (sys_fdopen fd fmode) as [file|]; [|discriminate].
  intros [= <-]. split; [assumption|]. now exists file.
Qed.

Lemma OpenFileInDataDirFD_no_exception (filename : string) (mode : list oflag) :
  no_exception (open_in_data_dir filename mode).
Proof.
  unfold OpenFileInDataDirFD.
  destruct (Z.ltb _ 0); [|exact I].
  destruct CASE_SENSITIVE_FS; [|exact I].
  pose proof (findObjectCaseInsensitive_no_exception PATH_SEPARATOR sys_opendir
                s_dataDir filename true false 128) as H.
  destruct (findObjectCaseInsensitive _ _ _ _ _ _ _) as [[n|]| | |];
    simpl; try exact I; exact H.
Qed.

(** X10: smart lookup only adds sources: a file that opens without it
    opens with it, to the same handle. *)
Theorem openForReadingSmart_monotone (filename : string) (h : SGPFile) :
  openForReadingSmart PATH_SEPARATOR CASE_SENSITIVE_FS s_dataDir sys_open
      sys_opendir sys_fdopen OpenFileFromLibrary filename false = Returns h ->
  openForReadingSmart PATH_SEPARATOR CASE_SENSITIVE_FS s_dataDir sys_open
      sys_opendir sys_fdopen OpenFileFromLibrary filename true = Returns h.
Proof.
  rewrite !openForReadingSmart_unfold. cbv zeta. rewrite andb_false_r.
  destruct (Z.ltb_spec (sys_open filename [O_RDONLY]) 0) as [Hneg|Hpos].
  - rewrite getSGPFileFromFD_failed by assumption. discriminate.
  - simpl. trivial.
Qed.

(** X11: when the literal path does not open, [openForReadingSmart] with
    smart lookup returns a handle on a real file exactly when
    [openForReadingInDataDir] returns a stream, and the handle is on that
    stream. *)
Theorem openForReadingSmart_in_data_dir (filename : string) (file : FILE) :
  (sys_open filename [O_RDONLY] < 0)%Z ->
  openForReadingInDataDir PATH_SEPARATOR CASE_SENSITIVE_FS s_dataDir sys_open
      sys_opendir sys_fdopen filename = Returns (Some file)
  <-> openForReadingSmart PATH_SEPARATOR CASE_SENSITIVE_FS s_dataDir sys_open
      sys_opendir sys_fdopen OpenFileFromLibrary filename true = Returns (RealFile file).
Proof.
  intros Hlit. rewrite openForReadingSmart_unfold. cbv zeta.
  destruct (Z.ltb_spec (sys_open filename [O_RDONLY]) 0); [|lia]. simpl andb. cbv iota.
  unfold openForReadingInDataDir. rewrite GetFileOpenModes_read. simpl bind at 1.
  destruct (open_in_data_dir filename [O_RDONLY]) as [d| | |]; simpl bind;
    try (split; discriminate).
  destruct (Z.ltb_spec d 0) as [Hd|Hd].
  - destruct (Z.leb_spec 0 d); [lia|].
    split; [discriminate|].
    destruct (OpenFileFromLibrary filename); [discriminate|].
    now rewrite getSGPFileFromFD_failed.
  - destruct (Z.leb_spec 0 d); [|lia].
    unfold getSGPFileFromFD. destruct (Z.ltb_spec d 0); [lia|].
    destruct (sys_fdopen d "rb") as [hFile|]; [|split; discriminate].
    unfold RealFile. split; intros [= ->]; reflexivity.
Qed.

(** X12: where [fopen] opens only what [open] opens, the archive's check
    answers as its lookup, and [fdopen] takes every descriptor, a file that
    [FileExists] reports is never refused by [openForReadingSmart]. *)
Theorem FileExists_then_opens (filename : string) :
  (forall path, sys_fopen path "rb" <> None -> (0 <= sys_open path [O_RDONLY])%Z) ->
  (forall name, CheckIfFileExistInLibrary name = true ->
                OpenFileFromLibrary name <> None) ->
  (forall fd, (0 <= fd)%Z -> sys_fdopen fd "rb" <> None) ->
  FileExists s_dataDir sys_fopen CheckIfFileExistInLibrary filename = true ->
  forall e, openForReadingSmart PATH_SEPARATOR CASE_SENSITIVE_FS s_dataDir sys_open
      sys_opendir sys_fdopen OpenFileFromLibrary filename true <> Throws e.
Proof.
  intros Hfopen Hlib Hfdopen Hexists e.
  assert (forall fd, (0 <= fd)%Z ->
            getSGPFileFromFD sys_fdopen fd filename "rb" <> Throws e) as Hfd.
  { intros fd Hpos. rewrite getSGPFileFromFD_opened by assumption.
    unfold real_file_handle. specialize (Hfdopen fd Hpos).
    destruct (sys_fdopen fd "rb"); [discriminate | congruence]. }
  rewrite openForReadingSmart_unfold. cbv zeta.
  destruct (Z.ltb_spec (sys_open filename [O_RDONLY]) 0) as [Hlit|Hlit];
    [|now apply Hfd].
  simpl andb. cbv iota.
  pose proof (OpenFileInDataDirFD_no_exception filename [O_RDONLY]) as Hno.
  destruct (open_in_data_dir filename [O_RDONLY]) as [d| | |] eqn:Hd; simpl bind;
    try discriminate; try contradiction.
  destruct (Z.ltb_spec d 0) as [Hneg|Hpos]; [|now apply Hfd].
  unfold FileExists in Hexists.
  destruct (sys_fopen filename "rb") eqn:E1.
  { assert (0 <= sys_open filename [O_RDONLY])%Z by (apply Hfopen; congruence). lia. }
  fold (in_data_dir filename) in Hexists.
  destruct (sys_fopen (in_data_dir filename) "rb") eqn:E2.
  { assert (0 <= sys_open (in_data_dir filename) [O_RDONLY])%Z as Hopen
      by (apply Hfopen; congruence).
    rewrite (OpenFileInDataDirFD_direct PATH_SEPARATOR CASE_SENSITIVE_FS s_dataDir
               sys_open sys_opendir filename Hopen) in Hd.
    injection Hd as <-. lia. }
  specialize (Hlib filename Hexists).
  destruct (OpenFileFromLibrary filename); [discriminate | congruence].
Qed.

(** X13: every handle an open function returns is tagged as what it
    holds: one on a real file, with [SGPFILE_REAL] and the stream of the
    descriptor, or, from [openForReadingSmart] with smart lookup after the
    literal path failed, one on the archive entry found, with
    [SGPFILE_NONE].  The functions that open for writing only ever return
    the first kind. *)
Theorem open_handles_tagged (filename : string) (h : SGPFile) :
  (forall useSmartLookup,
      openForReadingSmart PATH_SEPARATOR CASE_SENSITIVE_FS s_dataDir sys_open
      sys_opendir sys_fdopen OpenFileFromLibrary filename useSmartLookup = Returns h ->
      (exists file, h = RealFile file)
      \/ (useSmartLookup = true /\ (sys_open filename [O_RDONLY] < 0)%Z
          /\ exists lib, OpenFileFromLibrary filename = Some lib
                         /\ h = ArchiveEntry lib))
  /\ (openForWriting sys_open3 sys_fdopen filename = Returns h ->
      exists file, h = RealFile file)
  /\ (openForAppend sys_open3 sys_fdopen filename = Returns h ->
      exists file, h = RealFile file)
  /\ (openForReadWrite sys_open3 sys_fdopen filename = Returns h ->
      exists file, h = RealFile file).
Proof.
  assert (forall fd fmode, getSGPFileFromFD sys_fdopen fd filename fmode = Returns h ->
            exists file, h = RealFile file) as Hreal.
  { intros fd fmode H. apply getSGPFileFromFD_returns in H as [_ [file [_ ->]]].
    now exists file. }
  repeat split.
  - intros smart. rewrite openForReadingSmart_unfold. cbv zeta.
    destruct (Z.ltb_spec (sys_open filename [O_RDONLY]) 0) as [Hlit|Hlit];
      [|intros H; left; eapply Hreal; exact H].
    destruct smart; simpl andb; cbv iota; [|intros H; left; eapply Hreal; exact H].
    destruct (open_in_data_dir filename [O_RDONLY]) as [d| | |]; simpl bind;
      try discriminate.
    destruct (Z.ltb d 0); [|intros H; left; eapply Hreal; exact H].
    destruct (OpenFileFromLibrary filename) as [lib|];
      [|intros H; left; eapply Hreal; exact H].
    intros [= <-]. right. repeat split; [assumption|]. now exists lib.
  - unfold openForWriting. simpl. apply Hreal.
  - unfold openForAppend. simpl. apply Hreal.
  - unfold openForReadWrite. simpl. apply Hreal.
Qed.

End MoreOpenProperties.

(** X14: [GetFileOpenModes] looks at the three access bits only, and it
    aborts the program exactly when they are none, or append together with
    read or write. *)
Theorem GetFileOpenModes_access_bits (flags : N) :
  GetFileOpenModes flags = GetFileOpenModes (N.land flags 7)
  /\ (GetFileOpenModes flags = Aborts
      <-> N.land flags 7 = 0%N \/ (5 <= N.land flags 7)%N).
Proof.
  assert (N.land flags 7 < 8)%N as Hlt.
  { change 7%N with (N.ones 3). rewrite N.land_ones. now apply N.mod_lt. }
  assert (N.land (N.land flags 7) 7 = N.land flags 7) as Hidem.
  { now rewrite <- N.land_assoc. }
  unfold GetFileOpenModes at 1 2.
  change (N.lor FILE_ACCESS_READWRITE FILE_ACCESS_APPEND) with 7%N.
  rewrite Hidem. split; [reflexivity|].
  unfold GetFileOpenModes.
  change (N.lor FILE_ACCESS_READWRITE FILE_ACCESS_APPEND) with 7%N.
  assert (N.land flags 7 = 0 \/ N.land flags 7 = 1 \/ N.land flags 7 = 2
          \/ N.land flags 7 = 3 \/ N.land flags 7 = 4 \/ N.land flags 7 = 5
          \/ N.land flags 7 = 6 \/ N.land flags 7 = 7)%N as Hcases by lia.
  destruct Hcases as [E|[E|[E|[E|[E|[E|[E|E]]]]]]]; rewrite E; simpl;
    (split; [try discriminate; intros _; try (now left); right; lia
            | intros [H|H]; try reflexivity; try discriminate; lia]).
Qed.

(** ** Reading, writing and seeking through a handle *)

Lemma to_INT32_small (x : Z) : (0 <= x < 2 ^ 31)%Z -> to_INT32 x = x.
Proof. intros H. unfold to_INT32. rewrite Z.mod_small; lia. Qed.

Lemma to_INT32_large (x : Z) :
  (2 ^ 31 <= x < 2 ^ 32)%Z -> to_INT32 x = (x - 2 ^ 32)%Z.
Proof.
  intros H. unfold to_INT32.
  replace (x + 2 ^ 31)%Z with (x - 2 ^ 31 + 1 * 2 ^ 32)%Z by lia.
  rewrite Z.mod_add by lia. rewrite Z.mod_small; lia.
Qed.

Section MoreHandleProperties.

Variable LibraryFileSeek : LibraryFile -> Z -> FileSeekMode -> LibraryFile * bool.
Variable sys_fstat : FILE -> option N.
Local Abbreviation seek := (FileSeek LibraryFileSeek).

Lemma FileSeek_real (file : FILE) (distance : Z) (how : FileSeekMode) :
  seek (RealFile file) distance how =
  if Z.ltb (seek_base file how + distance) 0
  then (RealFile file, Throws SeekFailure)
  else (RealFile (at_position file (Z.to_N (seek_base file how + distance))),
        Returns tt).
Proof.
  unfold FileSeek, RealFile, fseek, seek_base. cbn [flags u].
  change (negb (N.eqb (N.land SGPFILE_REAL SGPFILE_REAL) 0)) with true. cbv iota.
  destruct how; cbv iota zeta;
    match goal with |- context [Z.ltb ?t 0] => destruct (Z.ltb t 0) end;
    reflexivity.
Qed.


(** X16: a seek on a real file to before its start throws the seek error
    and leaves the handle where it was, whichever origin it counts from. *)
Theorem FileSeek_before_start (file : FILE) (distance : Z) (how : FileSeekMode) :
  (seek_base file how + distance < 0)%Z ->
  FileSeek LibraryFileSeek (RealFile file) distance how = (RealFile file, Throws SeekFailure).
Proof.
  intros H. rewrite FileSeek_real.
  destruct (Z.ltb_spec (seek_base file how + distance) 0); [reflexivity | lia].
Qed.

(** X17: a read from a real file that returns has stored the bytes of the
    file from the position on, as many as were asked for, and has moved the
    position past them. *)
Theorem FileRead_bytes (file : FILE) (uiBytesToRead : N) (f' : SGPFile)
    (pDest : list Byte.byte) :
  FileRead (RealFile file) uiBytesToRead = (f', Returns pDest) ->
  pDest = firstn (N.to_nat uiBytesToRead)
            (skipn (N.to_nat (file_pos file)) (file_bytes file))
  /\ N.of_nat (length pDest) = uiBytesToRead
  /\ exists file',
       f' = RealFile file'
       /\ file_bytes file' = file_bytes file
       /\ file_pos file' = (file_pos file + uiBytesToRead)%N.
Proof.
  unfold FileRead, RealFile, fread. cbn [flags u].
  change (negb (N.eqb (N.land SGPFILE_REAL SGPFILE_REAL) 0)) with true. cbv iota.
  rewrite N.mul_1_r.
  destruct (N.eqb_spec uiBytesToRead 0) as [->|Hn]; [discriminate|].
  set (left_ := (N.of_nat (length (file_bytes file)) - file_pos file)%N).
  set (got := if can_read file
              then N.min (N.min uiBytesToRead left_) (io_budget file) else 0%N).
  assert (got <= uiBytesToRead)%N as Hle by (subst got; destruct (can_read file); lia).
  assert (got <= left_)%N as Hleft by (subst got; destruct (can_read file); lia).
  destruct (N.eq_dec got uiBytesToRead) as [Heq|Hne].
  - rewrite Heq, N.div_same by assumption. simpl.
    intros [= <- <-]. repeat split.
    + rewrite length_firstn, length_skipn. subst left_. lia.
    + eexists. split; [reflexivity|]. split; reflexivity.
  - rewrite (N.div_small got uiBytesToRead) by lia. simpl. discriminate.
Qed.


(** X19: [FileGetPos] reports the position of a real file through
    [(INT32)]: as it is below 2^31, and as a negative number from there up
    to 2^32. *)
Theorem FileGetPos_wraps (file : FILE) :
  ((file_pos file < 2 ^ 31)%N ->
   FileGetPos (RealFile file) = Returns (Z.of_N (file_pos file)))
  /\ ((2 ^ 31 <= file_pos file < 2 ^ 32)%N ->
      FileGetPos (RealFile file) = Returns (Z.of_N (file_pos file) - 2 ^ 32)%Z).
Proof.
  unfold FileGetPos, RealFile, ftell. cbn [flags u].
  change (negb (N.eqb (N.land SGPFILE_REAL SGPFILE_REAL) 0)) with true. cbv iota.
  split; intros H.
  - rewrite to_INT32_small; [reflexivity | lia].
  - rewrite to_INT32_large; [reflexivity | lia].
Qed.

(** X20: the operations keep a handle tagged as what it holds and never
    read the member of the union that was not stored: on a handle from an
    open function no read, write, seek, position or size query has
    undefined behaviour, and the handle left behind is of the same kind. *)
Theorem handle_operations_keep_tag (h : SGPFile) :
  well_tagged h ->
  (forall n, well_tagged (fst (FileRead h n))
             /\ flags (fst (FileRead h n)) = flags h
             /\ snd (FileRead h n) <> Undefined)
  /\ (forall pDest n, well_tagged (fst (FileWrite h pDest n))
                      /\ flags (fst (FileWrite h pDest n)) = flags h
                      /\ snd (FileWrite h pDest n) <> Undefined)
  /\ (forall distance how, well_tagged (fst (FileSeek LibraryFileSeek h distance how))
                           /\ flags (fst (FileSeek LibraryFileSeek h distance how)) = flags h
                           /\ snd (FileSeek LibraryFileSeek h distance how) <> Undefined)
  /\ FileGetPos h <> Undefined
  /\ FileGetSize sys_fstat h <> Undefined.
Proof.
  intros [[file ->] | [lib ->]].
  - split; [|split; [|split; [|split]]].
    + intros n. unfold FileRead, RealFile. cbn [flags u].
      change (negb (N.eqb (N.land SGPFILE_REAL SGPFILE_REAL) 0)) with true. cbv iota.
      destruct (fread n 1 file) as [[d i] file'].
      destruct (negb (N.eqb i 1)); cbn [fst snd flags];
        (split; [left; eexists; reflexivity | split; [reflexivity | discriminate]]).
    + intros pDest n. unfold FileWrite, RealFile. cbn [flags u].
      change (N.eqb (N.land SGPFILE_REAL SGPFILE_REAL) 0) with false. cbv iota.
      destruct (fwrite pDest n 1 file) as [i file'].
      destruct (negb (N.eqb i 1)); cbn [fst snd flags];
        (split; [left; eexists; reflexivity | split; [reflexivity | discriminate]]).
    + intros distance how. rewrite FileSeek_real.
      destruct (Z.ltb _ 0); cbn [fst snd flags];
        (split; [left; eexists; reflexivity | split; [reflexivity | discriminate]]).
    + discriminate.
    + unfold FileGetSize, RealFile. cbn [flags u].
      change (negb (N.eqb (N.land SGPFILE_REAL SGPFILE_REAL) 0)) with true. cbv iota.
      destruct (sys_fstat file); discriminate.
  - split; [|split; [|split; [|split]]].
    + intros n. unfold FileRead, ArchiveEntry. cbn [flags u].
      change (negb (N.eqb (N.land SGPFILE_NONE SGPFILE_REAL) 0)) with false. cbv iota.
      destruct (LoadDataFromLibrary lib (to_UINT32 n)) as [[d lib']|]; cbn [fst snd flags];
        (split; [right; eexists; reflexivity | split; [reflexivity | discriminate]]).
    + intros pDest n. cbn [fst snd FileWrite].
      split; [right; eexists; reflexivity | split; [reflexivity | discriminate]].
    + intros distance how. unfold FileSeek, ArchiveEntry. cbn [flags u].
      change (negb (N.eqb (N.land SGPFILE_NONE SGPFILE_REAL) 0)) with false. cbv iota.
      destruct (LibraryFileSeek lib distance how) as [lib' [|]]; cbn [fst snd flags negb];
        (split; [right; eexists; reflexivity | split; [reflexivity | discriminate]]).
    + discriminate.
    + discriminate.
Qed.

End MoreHandleProperties.

(** ** Deleting files and making directories *)

Section DeletingProperties.

Variable sys_unlink_missing : filesystem -> string -> errno.

Lemma FileDelete_cases (fs : filesystem) (path : string) :
  FileDelete sys_unlink_missing fs path =
  match fs_lookup path fs with
  | None =>
      match sys_unlink_missing fs path with
      | ENOENT => (fs, Returns tt)
      | _ => (fs, Throws DeleteFailure)
      end
  | Some i =>
      if is_directory i then (fs, Throws DeleteFailure)
      else match unlink_refusal i with
           | None => (fs_remove path fs, Returns tt)
           | Some ENOENT => (fs, Returns tt)
           | Some _ => (fs, Throws DeleteFailure)
           end
  end.
Proof.
  unfold FileDelete, unlink.
  destruct (fs_lookup path fs) as [i|].
  - destruct (is_directory i); [reflexivity|].
    destruct (unlink_refusal i) as [[]|]; reflexivity.
  - destruct (sys_unlink_missing fs path); reflexivity.
Qed.

(** X21: [FileDelete] touches no other path; when it throws it has
    changed nothing; for a path that is not there it returns when [unlink]
    reports [ENOENT] and throws when [unlink] reports anything else, as it
    does for a path that runs through a file; and once it has returned for
    a path, deleting the path again returns and changes nothing more, as
    long as [unlink] reports [ENOENT] for the path once it is gone. *)
Theorem FileDelete_properties (fs : filesystem) (path : string) :
  (forall q, q <> path ->
     fs_lookup q (fst (FileDelete sys_unlink_missing fs path)) = fs_lookup q fs)
  /\ (snd (FileDelete sys_unlink_missing fs path) <> Returns tt ->
      fst (FileDelete sys_unlink_missing fs path) = fs)
  /\ (fs_lookup path fs = None ->
      FileDelete sys_unlink_missing fs path
      = (fs, match sys_unlink_missing fs path with
             | ENOENT => Returns tt
             | _ => Throws DeleteFailure
             end))
  /\ (snd (FileDelete sys_unlink_missing fs path) = Returns tt ->
      sys_unlink_missing (fst (FileDelete sys_unlink_missing fs path)) path = ENOENT ->
      FileDelete sys_unlink_missing (fst (FileDelete sys_unlink_missing fs path)) path
      = (fst (FileDelete sys_unlink_missing fs path), Returns tt)).
Proof.
  rewrite (FileDelete_cases fs path).
  destruct (fs_lookup path fs) as [i|] eqn:E.
  - destruct (is_directory i) eqn:Hdir; [|destruct (unlink_refusal i) as [e|] eqn:Href].
    + cbn [fst snd]. repeat split; try reflexivity; discriminate.
    + assert ((if match e with ENOENT => true | _ => false end
               then (fs, Returns tt) else (fs, Throws DeleteFailure))
              = match e with
                | ENOENT => (fs, Returns tt)
                | _ => (fs, @Throws unit DeleteFailure)
                end) as <- by (destruct e; reflexivity).
      destruct e; cbn [fst snd]; repeat split; try reflexivity; try discriminate;
        intros _ _; rewrite FileDelete_cases, E, Hdir, Href; reflexivity.
    + cbn [fst snd]. repeat split; try discriminate.
      * intros q Hq. rewrite fs_lookup_remove.
        destruct (String.eqb_spec q path); [contradiction | reflexivity].
      * congruence.
      * intros _ Hgone.
        rewrite FileDelete_cases, fs_lookup_remove, String.eqb_refl, Hgone.
        reflexivity.
  - assert ((fs, match sys_unlink_missing fs path with
                 | ENOENT => Returns tt
                 | _ => Throws DeleteFailure
                 end)
            = match sys_unlink_missing fs path with
              | ENOENT => (fs, Returns tt)
              | _ => (fs, @Throws unit DeleteFailure)
              end) as Hpair by (destruct (sys_unlink_missing fs path); reflexivity).
    rewrite <- Hpair. cbn [fst snd]. repeat split; try reflexivity.
    intros _ Hgone. now rewrite FileDelete_cases, E, Hgone.
Qed.

End DeletingProperties.

Lemma fs_lookup_app_single (q p : string) (i : inode) (fs : filesystem) :
  fs_lookup q (fs ++ [(p, i)])%list =
  match fs_lookup q fs with
  | Some x => Some x
  | None => if String.eqb p q then Some i else None
  end.
Proof.
  induction fs as [|[p0 i0] fs IH]; simpl; [reflexivity|].
  destruct (String.eqb p0 q); [reflexivity | exact IH].
Qed.

Section CreateDirectoryProperties.

Variable sys_mkdir_refusal : filesystem -> string -> option errno.
Local Abbreviation create := (createDir sys_mkdir_refusal).

Lemma createDir_existing (fs : filesystem) (path : string) (i : inode) :
  fs_lookup path fs = Some i ->
  create fs path
  = (fs, if is_directory i then Returns tt else Throws CreateFailure).
Proof.
  intros H. unfold createDir, mkdir, FileGetAttributes. rewrite H. cbv iota zeta.
  rewrite H. destruct (is_directory i), (owner_writable i); reflexivity.
Qed.

(** X22: when [createDir] returns, the path is a directory and every
    other path is as it was; calling it again returns and changes nothing;
    and on a path that is there but is not a directory it throws and
    changes nothing. *)
Theorem createDir_properties (fs : filesystem) (path : string) :
  (forall fs',
      createDir sys_mkdir_refusal fs path = (fs', Returns tt) ->
      (exists i, fs_lookup path fs' = Some i /\ is_directory i = true)
      /\ (forall q, q <> path -> fs_lookup q fs' = fs_lookup q fs)
      /\ createDir sys_mkdir_refusal fs' path = (fs', Returns tt))
  /\ (forall i,
        fs_lookup path fs = Some i -> is_directory i = false ->
        createDir sys_mkdir_refusal fs path = (fs, Throws CreateFailure)).
Proof.
  split.
  - intros fs' Hrun.
    destruct (fs_lookup path fs) as [i|] eqn:E.
    + rewrite (createDir_existing fs path i E) in Hrun.
      destruct (is_directory i) eqn:Hdir; [|discriminate].
      injection Hrun as <-. repeat split.
      * exists i. auto.
      * rewrite (createDir_existing fs path i E), Hdir. reflexivity.
    + unfold createDir, mkdir in Hrun. rewrite E in Hrun.
      destruct (sys_mkdir_refusal fs path); [discriminate|].
      injection Hrun as <-.
      assert (fs_lookup path
                (fs ++ [(path, {| is_directory := true; owner_writable := true;
                                  unlink_refusal := None |})])%list
              = Some {| is_directory := true; owner_writable := true;
                        unlink_refusal := None |}) as Hnew.
      { now rewrite fs_lookup_app_single, E, String.eqb_refl. }
      repeat split.
      * eexists. split; [exact Hnew | reflexivity].
      * intros q Hq. rewrite fs_lookup_app_single.
        destruct (fs_lookup q fs); [reflexivity|].
        destruct (String.eqb_spec path q); [congruence | reflexivity].
      * now rewrite (createDir_existing _ path _ Hnew).
  - intros i E Hdir. now rewrite (createDir_existing fs path i E), Hdir.
Qed.

End CreateDirectoryProperties.

(** ** What erasing a directory leaves alone *)

Lemma prefix_n_append (m : nat) (a b : string) :
  String.length a <= m -> prefix_n m (a ++ b) = a ++ prefix_n (m - String.length a) b.
Proof.
  revert m. induction a as [|c a IH]; intros m H; simpl in *.
  - now rewrite Nat.sub_0_r.
  - destruct m as [|m]; [lia|]. simpl. f_equal. apply IH. lia.
Qed.

Lemma strstr_slash_prefix_none (m : nat) (s : string) :
  strstr_slash s = None -> strstr_slash (prefix_n m s) = None.
Proof.
  revert m. induction s as [|c s IH]; intros [|m]; simpl; try reflexivity.
  destruct (Ascii.eqb c "/"); [discriminate|].
  destruct (strstr_slash s); [discriminate|].
  intros _. now rewrite IH.
Qed.

(** The name [FindFiles::Next] hands out has no ['/'] in it. *)
Lemma FindFiles_Next_no_slash (entry : string) :
  strstr_slash (FindFiles_Next "/" entry) = None.
Proof.
  unfold FindFiles_Next.
  induction entry as [|a rest IH]; [reflexivity|].
  cbn [strrchr].
  destruct (strrchr rest "/") as [k|].
  - replace (S k + 1) with (S (k + 1)) by lia. exact IH.
  - destruct (Ascii.eqb a "/") eqn:Ha.
    + exact IH.
    + simpl. now rewrite Ha, IH.
Qed.

(** A file name [EraseDirectory] builds is never a path below a
    subdirectory of [path]. *)
Lemma erase_target_not_below (path entry x : string) :
  strstr_slash x <> None ->
  erase_target "/" path entry <> path ++ "/" ++ x.
Proof.
  intros Hx E. unfold erase_target, snprintf in E.
  pose proof (FindFiles_Next_no_slash entry) as Hname.
  set (name := FindFiles_Next "/" entry) in *.
  assert (String.length path + 1 <= 512 - 1) as Hm.
  { apply (f_equal String.length) in E.
    rewrite length_prefix_n, !length_append in E.
    change (String.length "/") with 1 in E. lia. }
  rewrite prefix_n_append in E by lia.
  apply append_inv_head in E.
  destruct (512 - 1 - String.length path) as [|m] eqn:Em; [lia|].
  change ("/" ++ name) with (String "/" name) in E.
  change ("/" ++ x) with (String "/" x) in E.
  cbn [prefix_n] in E. injection E as E.
  apply Hx. rewrite <- E. now apply strstr_slash_prefix_none.
Qed.

Section MoreEraseProperties.

Variable PATH_SEPARATOR : ascii.
Variable sys_glob : filesystem -> string -> option (list string).
Variable sys_unlink_missing : filesystem -> string -> errno.

(** Whatever way the loop ends, a path is as it was or was removed by
    [unlink] as the file name of an entry. *)
Lemma EraseDirectory_loop_only_removes (path : string) (gl_pathv : list string) :
  forall fs p,
    fs_lookup p (fst (EraseDirectory_loop PATH_SEPARATOR sys_unlink_missing path gl_pathv fs))
    = fs_lookup p fs
    \/ (fs_lookup p (fst (EraseDirectory_loop PATH_SEPARATOR sys_unlink_missing path gl_pathv fs)) = None
        /\ deletable fs p = true
        /\ exists entry, In entry gl_pathv
                         /\ p = erase_target PATH_SEPARATOR path entry).
Proof.
  induction gl_pathv as [|entry rest IH]; intros fs p; [now left|].
  rewrite EraseDirectory_loop_step.
  destruct (refused sys_unlink_missing fs (erase_target PATH_SEPARATOR path entry)); [now left|].
  set (t := erase_target PATH_SEPARATOR path entry).
  set (fs1 := if deletable fs t then fs_remove t fs else fs).
  assert (fs_lookup p fs1 =
          if String.eqb p t && deletable fs t then None else fs_lookup p fs) as Hfs1
    by apply lookup_after_step.
  destruct (IH fs1 p) as [Hsame | [Hnone [Hdel [e [Hin Hp]]]]].
  - rewrite Hsame, Hfs1.
    destruct (String.eqb_spec p t) as [->|Hne]; simpl; [|now left].
    destruct (deletable fs t) eqn:Hd; [|now left].
    right. split; [reflexivity|]. split; [reflexivity|].
    exists entry. split; [now left | reflexivity].
  - right. split; [exact Hnone|]. split.
    + unfold deletable at 1 in Hdel. rewrite Hfs1 in Hdel.
      destruct (String.eqb p t && deletable fs t); [discriminate | exact Hdel].
    + exists e. split; [now right | exact Hp].
Qed.

(** X23: [EraseDirectory] only ever removes, and only the files named
    by the entries [glob] matched: however the call ends, a path is as it
    was, or it was a file [unlink] removes, was built from an entry of
    [gl_pathv], and is gone. *)
Theorem EraseDirectory_only_removes (fs : filesystem) (path p : string) :
  let fs' := fst (EraseDirectory PATH_SEPARATOR sys_glob sys_unlink_missing fs path) in
  fs_lookup p fs' = fs_lookup p fs
  \/ (fs_lookup p fs' = None
      /\ deletable fs p = true
      /\ exists gl_pathv entry,
           sys_glob fs (snprintf 512 (path ++ "/*")) = Some gl_pathv
           /\ In entry gl_pathv
           /\ p = erase_target PATH_SEPARATOR path entry).
Proof.
  cbv zeta. unfold EraseDirectory, FindFiles.
  destruct (sys_glob fs (snprintf 512 (path ++ "/*"))) as [gl_pathv|]; [|now left].
  destruct (EraseDirectory_loop_only_removes path gl_pathv fs p)
    as [H | [H1 [H2 [entry [H3 H4]]]]]; [now left|].
  right. repeat split; try assumption. now exists gl_pathv, entry.
Qed.

End MoreEraseProperties.

(** X24: [EraseDirectory] does not descend: whatever [glob] returns and
    however the call ends, every path below a subdirectory of [path] is as
    it was. *)
Theorem EraseDirectory_not_recursive
    (sys_glob : filesystem -> string -> option (list string))
    (sys_unlink_missing : filesystem -> string -> errno)
    (fs : filesystem) (path x : string) :
  strstr_slash x <> None ->
  fs_lookup (path ++ "/" ++ x) (fst (EraseDirectory "/" sys_glob sys_unlink_missing fs path))
  = fs_lookup (path ++ "/" ++ x) fs.
Proof.
  intros Hx. unfold EraseDirectory, FindFiles.
  destruct (sys_glob fs (snprintf 512 (path ++ "/*"))) as [gl_pathv|]; [|reflexivity].
  destruct (EraseDirectory_loop_only_removes "/" sys_unlink_missing path gl_pathv fs
              (path ++ "/" ++ x))
    as [H | [_ [_ [entry [_ H]]]]]; [exact H|].
  symmetry in H. now apply erase_target_not_below in H.
Qed.

(** ** Locating the data directories *)

Section DirectoryLocatorProperties.

Variable PATH_SEPARATOR : ascii.
Variable CASE_SENSITIVE_FS : bool.
Variable sys_opendir : string -> option (list dirent).
Variable TILECACHEDIR : string.
Variable MAPSDIR : string.

Local Abbreviation join := (joinPaths PATH_SEPARATOR).
Local Abbreviation find := (findObjectCaseInsensitive PATH_SEPARATOR sys_opendir).
Local Abbreviation locate :=
  (findDataDirs PATH_SEPARATOR CASE_SENSITIVE_FS sys_opendir TILECACHEDIR MAPSDIR).

Lemma find_subdirectory_returns (directory name : string) :
  directory_in_name name = None ->
  exists found,
    find directory name false true 128 = Returns found
    /\ (forall actual, found = Some actual ->
          exists entries e,
            sys_opendir directory = Some entries
            /\ last_match name (objectTypes false true) entries = Some e
            /\ actual = prefix_n 127 (d_name e)).
Proof.
  intros Hname.
  rewrite findObjectCaseInsensitive_scan_result by (assumption || lia).
  eexists. split; [reflexivity|].
  intros actual. destruct (sys_opendir directory) as [entries|]; [|discriminate].
  destruct (last_match name (objectTypes false true) entries) as [e|] eqn:E;
    [|discriminate].
  intros [= <-]. now exists entries, e.
Qed.

(** X25: [findDataDirs] always returns, and the data directory it leaves
    is the root joined with a name that spells "data" in some mix of
    cases: the literal name, or that of a subdirectory of the root. *)
Theorem findDataDirs_data_directory (s_gameResRootPath : string) :
  directory_in_name TILECACHEDIR = None ->
  directory_in_name MAPSDIR = None ->
  exists name s_tileDir s_mapsDir,
    findDataDirs PATH_SEPARATOR CASE_SENSITIVE_FS sys_opendir
        TILECACHEDIR MAPSDIR s_gameResRootPath
    = Returns (joinPaths PATH_SEPARATOR s_gameResRootPath name, s_tileDir, s_mapsDir)
    /\ strcasecmp BASEDATADIR name = 0%Z.
Proof.
  intros Htile Hmaps. unfold findDataDirs. cbv zeta.
  destruct CASE_SENSITIVE_FS.
  - destruct (find_subdirectory_returns s_gameResRootPath BASEDATADIR eq_refl)
      as [found [-> Hfound]]. simpl bind.
    set (s_dataDir := match found with
                      | Some name => join s_gameResRootPath name
                      | None => join s_gameResRootPath BASEDATADIR
                      end).
    destruct (find_subdirectory_returns s_dataDir TILECACHEDIR Htile) as [t [-> _]].
    destruct (find_subdirectory_returns s_dataDir MAPSDIR Hmaps) as [m [-> _]].
    simpl bind. subst s_dataDir.
    destruct found as [name|].
    + exists name. eexists. eexists. split; [reflexivity|].
      destruct (Hfound name eq_refl) as [entries [e [_ [He ->]]]].
      apply last_match_Some in He as [_ He].
      unfold entry_matches in He. apply andb_true_iff in He as [_ He].
      apply Z.eqb_eq in He.
      apply strcasecmp_prefix_n; [exact He | simpl; lia].
    + exists BASEDATADIR. eexists. eexists. split; [reflexivity|].
      apply strcasecmp_refl.
  - exists BASEDATADIR. eexists. eexists. split; [reflexivity|].
    apply strcasecmp_refl.
Qed.

(** X26: when the data directory is found under another spelling but no
    tile cache directory is found in it, the tile cache directory that
    [findDataDirs] leaves is the literal one under the root joined with
    "data", and not a directory below the data directory it found. *)
Theorem findDataDirs_tilecache_fallback (s_gameResRootPath : string)
    (entries : list dirent) (e : dirent) :
  CASE_SENSITIVE_FS = true ->
  directory_in_name TILECACHEDIR = None ->
  directory_in_name MAPSDIR = None ->
  sys_opendir s_gameResRootPath = Some entries ->
  last_match BASEDATADIR (objectTypes false true) entries = Some e ->
  (forall listing x,
      sys_opendir (joinPaths PATH_SEPARATOR s_gameResRootPath
            (prefix_n 127 (d_name e))) = Some listing ->
      In x listing -> entry_matches TILECACHEDIR (objectTypes false true) x = false) ->
  exists s_mapsDir,
    findDataDirs PATH_SEPARATOR CASE_SENSITIVE_FS sys_opendir
        TILECACHEDIR MAPSDIR s_gameResRootPath
    = Returns (joinPaths PATH_SEPARATOR s_gameResRootPath (prefix_n 127 (d_name e)),
               joinPaths PATH_SEPARATOR
                 (joinPaths PATH_SEPARATOR s_gameResRootPath BASEDATADIR) TILECACHEDIR,
               s_mapsDir).
Proof.
  intros Hcs Htile Hmaps Hroot He Hnone. unfold findDataDirs. cbv zeta. rewrite Hcs.
  rewrite (findObjectCaseInsensitive_scan_result _ _ s_gameResRootPath BASEDATADIR)
    by (reflexivity || lia).
  rewrite Hroot, He. cbn [bind]. change (128 - 1) with 127.
  set (s_dataDir := join s_gameResRootPath (prefix_n 127 (d_name e))).
  rewrite (findObjectCaseInsensitive_scan_result _ _ s_dataDir TILECACHEDIR)
    by (assumption || lia).
  assert (match sys_opendir s_dataDir with
          | Some listing =>
              match last_match TILECACHEDIR (objectTypes false true) listing with
              | Some x => Some (prefix_n (128 - 1) (d_name x))
              | None => None
              end
          | None => None
          end = None) as ->.
  { destruct (sys_opendir s_dataDir) as [listing|] eqn:Hl; [|reflexivity].
    rewrite last_match_none; [reflexivity|].
    intros x Hx. exact (Hnone listing x Hl Hx). }
  cbn [bind].
  destruct (find_subdirectory_returns s_dataDir MAPSDIR Hmaps) as [m [-> _]].
  cbn [bind]. eexists. reflexivity.
Qed.

End DirectoryLocatorProperties.

(** * The further properties on the sample installation *)

Lemma findObjectCaseInsensitive_found_iff_witness :
  exists found,
    findObjectCaseInsensitive "/" sample_opendir "data" "README.TXT" true false 128
    = Returns found
    /\ (found = None <->
        forall entries e,
          sample_opendir "data" = Some entries -> In e entries ->
          entry_matches "README.TXT" (objectTypes true false) e = false)
    /\ (forall nameBuf, found = Some nameBuf ->
        exists entries e,
          sample_opendir "data" = Some entries /\ In e entries
          /\ entry_matches "README.TXT" (objectTypes true false) e = true
          /\ nameBuf = prefix_n (128 - 1) (d_name e)).
Proof.
  exact (findObjectCaseInsensitive_found_iff "/" sample_opendir "data" "README.TXT"
           true false 128 eq_refl (Nat.lt_0_succ 127)).
Defined.

Lemma findObjectCaseInsensitive_exact_name_witness :
  exists nameBuf,
    findObjectCaseInsensitive "/" sample_opendir "data" "maps" true false 128
    = Returns (Some nameBuf).
Proof.
  apply (findObjectCaseInsensitive_exact_name "/" sample_opendir "data" "maps"
           true false 128
           [mkDirent "MAPS" DT_DIR; mkDirent "maps" DT_REG;
            mkDirent "Maps" DT_DIR; mkDirent "readme.txt" DT_REG]
           (mkDirent "maps" DT_REG)).
  - reflexivity.
  - lia.
  - reflexivity.
  - right. left. reflexivity.
  - reflexivity.
  - vm_compute. discriminate.
Defined.

Lemma findObjectCaseInsensitive_unknown_types_witness :
  findObjectCaseInsensitive "/" sample_untyped_opendir "data" "maps" true true 128
  = Returns None.
Proof.
  apply (findObjectCaseInsensitive_unknown_types "/" sample_untyped_opendir
           "data" "maps" true true 128).
  - intros dir entries e. unfold sample_untyped_opendir.
    destruct (String.eqb dir "data"); [|discriminate].
    intros [= <-] [<-|[<-|[]]]; reflexivity.
  - lia.
  - intros dirNameLen. vm_compute. discriminate.
Defined.

Lemma findObjectCaseInsensitive_directory_first_witness :
  findObjectCaseInsensitive "/" sample_opendir "data" "readme.txt/notes" true true 128
  = Returns None.
Proof.
  apply (findObjectCaseInsensitive_directory_first "/" sample_opendir
           "data" "readme.txt/notes" true true 128 10).
  - reflexivity.
  - lia.
  - intros entries e Hdir. vm_compute in Hdir. injection Hdir as <-.
    intros [<-|[<-|[<-|[<-|[]]]]]; [right | left | right | left];
      vm_compute; (reflexivity || discriminate).
Defined.

Lemma findObjectCaseInsensitive_directory_overflow_witness :
  findObjectCaseInsensitive "/" sample_long_opendir sample_long_directory
    "maps/a1.dat" true false 128
  = Undefined.
Proof.
  apply (findObjectCaseInsensitive_directory_overflow "/" sample_long_opendir
           sample_long_directory "maps/a1.dat" true false 128 4
           [mkDirent "maps" DT_DIR] (mkDirent "maps" DT_DIR)).
  - reflexivity.
  - lia.
  - vm_compute. reflexivity.
  - reflexivity.
  - vm_compute. reflexivity.
  - vm_compute. lia.
Defined.

Lemma openForReadingSmart_monotone_witness :
  openForReadingSmart "/" true "data" sample_open sample_opendir sample_fdopen
    sample_library "data/Maps/a1.dat" true
  = Returns (RealFile sample_stream).
Proof.
  apply (openForReadingSmart_monotone "/" true "data" sample_open sample_opendir
           sample_fdopen sample_library "data/Maps/a1.dat").
  vm_compute. reflexivity.
Defined.

Lemma openForReadingSmart_in_data_dir_witness :
  openForReadingSmart "/" true "data" sample_open sample_opendir sample_fdopen
    sample_library "maps/A1.dat" true
  = Returns (RealFile sample_stream).
Proof.
  apply (proj1 (openForReadingSmart_in_data_dir "/" true "data" sample_open
                  sample_opendir sample_fdopen sample_library "maps/A1.dat"
                  sample_stream ltac:(vm_compute; reflexivity))).
  vm_compute. reflexivity.
Defined.

Lemma FileExists_then_opens_witness :
  FileExists "data" sample_fopen sample_check_library "sounds/hit.wav" = true
  /\ openForReadingSmart "/" true "data" sample_open sample_opendir
       sample_fdopen_any sample_library "sounds/hit.wav" true
     <> Throws (NotFound "sounds/hit.wav").
Proof.
  split; [reflexivity|].
  apply (FileExists_then_opens "/" true "data" sample_open sample_opendir
           sample_fdopen_any sample_fopen sample_library sample_check_library
           "sounds/hit.wav").
  - intros path. unfold sample_fopen, sample_open.
    destruct (String.eqb path "data/Maps/a1.dat"); [lia | congruence].
  - intros name. unfold sample_check_library, sample_library.
    destruct (String.eqb name "sounds/hit.wav"); [discriminate | discriminate].
  - discriminate.
  - reflexivity.
Defined.


Lemma FileSeek_before_start_witness :
  FileSeek sample_LibraryFileSeek (RealFile sample_stream) (-4) FILE_SEEK_FROM_END
  = (RealFile sample_stream, Throws SeekFailure).
Proof.
  apply (FileSeek_before_start sample_LibraryFileSeek sample_stream (-4)
           FILE_SEEK_FROM_END).
  vm_compute. reflexivity.
Defined.

Lemma FileRead_bytes_witness :
  [Byte.x4a; Byte.x41] = firstn 2 (skipn 0 (file_bytes sample_stream))
  /\ N.of_nat 2 = 2%N
  /\ exists file',
       RealFile (snd (fread 2 1 sample_stream)) = RealFile file'
       /\ file_bytes file' = file_bytes sample_stream
       /\ file_pos file' = 2%N.
Proof.
  exact (FileRead_bytes sample_stream 2 (RealFile (snd (fread 2 1 sample_stream)))
           [Byte.x4a; Byte.x41] eq_refl).
Defined.


Lemma FileGetPos_wraps_witness :
  FileGetPos (RealFile (at_position sample_stream (2 ^ 31)))
  = Returns (- 2 ^ 31)%Z.
Proof.
  apply (proj2 (FileGetPos_wraps (at_position sample_stream (2 ^ 31)))).
  vm_compute. split; [discriminate | reflexivity].
Defined.

Lemma handle_operations_keep_tag_witness :
  well_tagged (fst (FileRead (RealFile sample_stream) 2))
  /\ flags (fst (FileRead (RealFile sample_stream) 2)) = flags (RealFile sample_stream)
  /\ snd (FileRead (RealFile sample_stream) 2) <> Undefined.
Proof.
  apply (proj1 (handle_operations_keep_tag sample_LibraryFileSeek sample_fstat
                  (RealFile sample_stream)
                  (or_introl (ex_intro _ sample_stream eq_refl)))).
Defined.

Lemma FileDelete_properties_witness :
  FileDelete sample_unlink_missing sample_fs "D/sub/x.txt/y"
  = (sample_fs, Throws DeleteFailure)
  /\ FileDelete sample_unlink_missing sample_fs "D/none" = (sample_fs, Returns tt).
Proof.
  split.
  - exact (proj1 (proj2 (proj2 (FileDelete_properties sample_unlink_missing sample_fs
                                  "D/sub/x.txt/y"))) eq_refl).
  - exact (proj1 (proj2 (proj2 (FileDelete_properties sample_unlink_missing sample_fs
                                  "D/none"))) eq_refl).
Defined.

Lemma EraseDirectory_not_recursive_witness :
  fs_lookup "D/sub/x.txt"
    (fst (EraseDirectory "/" sample_glob sample_unlink_missing sample_fs "D"))
  = fs_lookup "D/sub/x.txt" sample_fs.
Proof.
  apply (EraseDirectory_not_recursive sample_glob sample_unlink_missing sample_fs
           "D" "sub/x.txt").
  vm_compute. discriminate.
Defined.

Lemma findDataDirs_data_directory_witness :
  exists name s_tileDir s_mapsDir,
    findDataDirs "/" true sample_root_opendir "tilecache" "maps" "game"
    = Returns (joinPaths "/" "game" name, s_tileDir, s_mapsDir)
    /\ strcasecmp BASEDATADIR name = 0%Z.
Proof.
  exact (findDataDirs_data_directory "/" true sample_root_opendir "tilecache" "maps"
           "game" eq_refl eq_refl).
Defined.

Lemma findDataDirs_tilecache_fallback_witness :
  exists s_mapsDir,
    findDataDirs "/" true sample_root_opendir "tilecache" "maps" "game"
    = Returns ("game/Data", "game/data/tilecache", s_mapsDir).
Proof.
  apply (findDataDirs_tilecache_fallback "/" true sample_root_opendir
           "tilecache" "maps" "game"
           [mkDirent "Data" DT_DIR; mkDirent "docs" DT_DIR] (mkDirent "Data" DT_DIR));
    try reflexivity.
  intros listing x. vm_compute. intros [= <-] [<-|[]]. reflexivity.
Defined.

(** The directories the locator leaves on that installation. *)
Example findDataDirs_sample :
  findDataDirs "/" true sample_root_opendir "tilecache" "maps" "game"
  = Returns ("game/Data", "game/data/tilecache", "game/Data/Maps").
Proof. vm_compute. reflexivity. Qed.
